(** * AutoTrainix: the ML project structure generator
    (src/utils/ml_project_creator.py)

    A shallow embedding of the folder-specification parser
    [parse_folders_with_colon], of the class [MLProjectCreator]
    (directory creation and tree printing) and of [main], together with
    the properties of the specification that concern them.

    Python values are modelled as follows.
    - [str]: the list of the Unicode code points of the string ([N]).
    - [Dict[str, List[str]]]: an association list with the insertion
      order and the in-place overwrite of a Python dict.
    - [Path]: the list of the components of an absolute POSIX path.
    - the file system, the working directory, the clock and the standard
      output: one record [world], threaded through a state and
      exception monad.

    What the model of the platform leaves out: symbolic links; the
    limit of the interpreter on nested calls; the failures of [mkdir]
    other than a path with a NUL character, a missing parent, a parent
    that is not a directory, an entry that exists and a parent that is
    not writable; directories that cannot be read or searched; the
    failure of [print] on text that the output cannot encode; the parsing
    of the command line before [main] builds the creator; the escapes of
    [repr] in the text of an [OSError]; years outside 1000..9999 in the
    timestamp. *)

From Stdlib Require Import NArith ZArith Ascii String.
From stdpp Require Import base list gmap.

Local Open Scope N_scope.
Local Open Scope list_scope.

(** ** Python strings *)

Abbreviation str := (list N).

(** A string literal of the source made of ASCII characters only. *)
Definition py (s : string) : str := N_of_ascii <$> list_ascii_of_string s.

(** [c.isspace()] of CPython ([_PyUnicode_IsWhitespace]): the characters
    that [str.strip()] without argument removes. *)
Definition isspace (c : N) : bool :=
  ((9 <=? c) && (c <=? 13)) || ((28 <=? c) && (c <=? 32))
  || (c =? 133) || (c =? 160) || (c =? 5760)
  || ((8192 <=? c) && (c <=? 8202))
  || (c =? 8232) || (c =? 8233) || (c =? 8239) || (c =? 8287)
  || (c =? 12288).

(** [s.lstrip()] *)
Fixpoint lstrip (s : str) : str :=
  match s with
  | [] => []
  | c :: s' => if isspace c then lstrip s' else s
  end.

(** [s.rstrip()] *)
Definition rstrip (s : str) : str := reverse (lstrip (reverse s)).

(** [s.strip()] *)
Definition strip (s : str) : str := rstrip (lstrip s).

(** [s.split(sep)] for a separator of one character. *)
Fixpoint split (sep : N) (s : str) : list str :=
  match s with
  | [] => [[]]
  | c :: s' =>
      if c =? sep then [] :: split sep s'
      else match split sep s' with
           | [] => [[c]]
           | p :: ps => (c :: p) :: ps
           end
  end.

(** [a, b = s.split(sep, 1)]: the parts before and after the first
    separator. The source unpacks two values, and calls it only under
    [sep in s]. *)
Fixpoint split_first (sep : N) (s : str) : str * str :=
  match s with
  | [] => ([], [])
  | c :: s' =>
      if c =? sep then ([], s')
      else let '(a, b) := split_first sep s' in (c :: a, b)
  end.

(** [sep.join(ps)] for a separator of one character. *)
Fixpoint join (sep : N) (ps : list str) : str :=
  match ps with
  | [] => []
  | [p] => p
  | p :: ps' => p ++ sep :: join sep ps'
  end.

Definition colon : N := 58.
Definition comma : N := 44.

(** ** Python dicts with string keys *)

Abbreviation dict V := (list (str * V)).

(** [d[k] = v]: an existing key keeps its position, a new key goes last. *)
Fixpoint dict_set {V} (k : str) (v : V) (d : dict V) : dict V :=
  match d with
  | [] => [(k, v)]
  | (k', v') :: d' =>
      if decide (k = k') then (k, v) :: d' else (k', v') :: dict_set k v d'
  end.

(** [d.get(k)] *)
Fixpoint dict_get {V} (d : dict V) (k : str) : option V :=
  match d with
  | [] => None
  | (k', v') :: d' => if decide (k = k') then Some v' else dict_get d' k
  end.

(** [list(d.keys())] *)
Definition dict_keys {V} (d : dict V) : list str := fst <$> d.

(** ** The specification parser *)

(** [[s.strip() for s in sub_spec.split(',') if s.strip()]] *)
Definition sub_folders_of (sub_spec : str) : list str :=
  strip <$> filter (λ s, strip s ≠ []) (split comma sub_spec).

(** The body of the loop of [parse_folders_with_colon]. *)
Definition parse_spec (result : dict (list str)) (spec : str) : dict (list str) :=
  if bool_decide (colon ∈ spec) then
    let '(folder_name, sub_spec) := split_first colon spec in
    let sub_folders := sub_folders_of sub_spec in
    dict_set folder_name sub_folders result
  else
    dict_set spec [] result.

Definition parse_folders_with_colon (folder_specs : list str) : dict (list str) :=
  foldl parse_spec [] folder_specs.

(** The key and the value that one token contributes. *)
Definition folder_name_of (spec : str) : str :=
  if bool_decide (colon ∈ spec) then (split_first colon spec).1 else spec.

Definition sub_folders_for (spec : str) : list str :=
  if bool_decide (colon ∈ spec) then sub_folders_of (split_first colon spec).2
  else [].

(** [a] is [b] with whitespace added before and after it. *)
Definition padded (a b : str) : Prop :=
  ∃ l r, Forall (λ c, isspace c = true) l ∧ Forall (λ c, isspace c = true) r
         ∧ a = l ++ b ++ r.

(** Two tokens that differ only by whitespace around the comma-separated
    pieces of their subfolder part. *)
Inductive ws_variant : str → str → Prop :=
  | ws_same t : ws_variant t t
  | ws_subs name ps1 ps2 :
      colon ∉ name →
      Forall (λ p, comma ∉ p) ps2 →
      Forall2 padded ps1 ps2 →
      ws_variant (name ++ colon :: join comma ps1) (name ++ colon :: join comma ps2).

(** ** Paths ([pathlib.PurePosixPath])

    Every path of the program is built from [Path.cwd()], which is
    absolute: a path is the list of its components below the root [/].
    As in [pathlib], empty components and [.] are dropped when a string
    is parsed, and [..] is kept. *)

Abbreviation path := (list str).

Definition slash : N := 47.
Definition dot : str := [46].
Definition dotdot : str := [46; 46].

Definition path_parts (s : str) : list str :=
  filter (λ c, c ≠ [] ∧ c ≠ dot) (split slash s).

Definition is_absolute (s : str) : bool :=
  match s with
  | c :: _ => c =? slash
  | [] => false
  end.

(** [base / s] *)
Definition path_join (base : path) (s : str) : path :=
  if is_absolute s then path_parts s else base ++ path_parts s.

(** [p.name] *)
Definition path_name (p : path) : str := default [] (last p).

(** [str(p)] *)
Definition path_str (p : path) : str := slash :: join slash p.

(** The order of [sorted] on paths and on strings: lexicographic, by
    component and by code point. *)
Fixpoint lex_compare {A} (cmp : A → A → comparison) (l1 l2 : list A) : comparison :=
  match l1, l2 with
  | [], [] => Eq
  | [], _ :: _ => Lt
  | _ :: _, [] => Gt
  | x :: l1', y :: l2' =>
      match cmp x y with
      | Eq => lex_compare cmp l1' l2'
      | c => c
      end
  end.

Definition str_compare : str → str → comparison := lex_compare N.compare.
Definition path_compare : path → path → comparison := lex_compare str_compare.

Definition path_ltb (p q : path) : bool :=
  match path_compare p q with
  | Lt => true
  | _ => false
  end.

Fixpoint insert_sorted (x : path) (l : list path) : list path :=
  match l with
  | [] => [x]
  | y :: l' => if path_ltb y x then y :: insert_sorted x l' else x :: l
  end.

(** [sorted(l)] (a stable sort) *)
Definition sorted (l : list path) : list path := foldr insert_sorted [] l.

(** ** The file system *)

Inductive node : Type :=
  | Dir (writable : bool)
  | File
  | Other.

Inductive errno : Type :=
  | ENOENT
  | ENOTDIR
  | EEXIST
  | EACCES.

#[export] Instance errno_eq_dec : EqDecision errno.
Proof. solve_decision. Defined.

#[export] Instance node_eq_dec : EqDecision node.
Proof. solve_decision. Defined.

(** The exceptions of the program: [ValueError], and [OSError] with or
    without a file name ([os.getcwd] gives none). *)
Inductive exn : Type :=
  | ValueError (msg : str)
  | OSError (e : errno) (filename : path)
  | OSError_nofile (e : errno).

(** A file system maps the canonical path of each existing entry to its
    kind; the key [[]] is the root directory. There are no symbolic
    links. *)
Abbreviation fsmap := (gmap path node).

(** Some component of the path holds the NUL character. The functions
    of [os] raise [ValueError] on such a path before any system call;
    [is_dir] and [is_file] of [pathlib] catch it and answer [False]. *)
Definition has_nul (p : path) : bool :=
  bool_decide (Exists (λ c : str, 0 ∈ c) p).

Definition embedded_null : exn := ValueError (py "embedded null byte").

(** Path resolution of the operating system, from the directory [acc]:
    every component is looked up in a directory, and [..] goes up. *)
Fixpoint resolve_from (m : fsmap) (acc : path) (parts : list str) : errno + path :=
  match parts with
  | [] => inr acc
  | c :: rest =>
      match m !! acc with
      | Some (Dir _) =>
          resolve_from m (if decide (c = dotdot) then removelast acc else acc ++ [c]) rest
      | Some _ => inl ENOTDIR
      | None => inl ENOENT
      end
  end.

Definition resolve (m : fsmap) (p : path) : errno + path := resolve_from m [] p.

(** [p.is_dir()] and [p.is_file()] *)
Definition is_dir (m : fsmap) (p : path) : bool :=
  if has_nul p then false
  else match resolve m p with
       | inr c => match m !! c with Some (Dir _) => true | _ => false end
       | inl _ => false
       end.

Definition is_file (m : fsmap) (p : path) : bool :=
  if has_nul p then false
  else match resolve m p with
       | inr c => match m !! c with Some File => true | _ => false end
       | inl _ => false
       end.

(** [os.mkdir(p)] *)
Definition os_mkdir (m : fsmap) (p : path) : errno + fsmap :=
  match last p with
  | None => inl EEXIST
  | Some c =>
      match resolve m (removelast p) with
      | inl e => inl e
      | inr par =>
          match m !! par with
          | Some (Dir w) =>
              if decide (c = dotdot) then inl EEXIST
              else match m !! (par ++ [c]) with
                   | Some _ => inl EEXIST
                   | None =>
                       if w then inr (<[par ++ [c] := Dir true]> m)
                       else inl EACCES
                   end
          | Some _ => inl ENOTDIR
          | None => inl ENOENT
          end
      end
  end.

(** [p.mkdir(exist_ok=True)] of [pathlib]: the [ValueError] of a path
    with a NUL character passes through; [FileNotFoundError] is raised
    again since [parents] is false; any other [OSError] is swallowed
    when the path is a directory. *)
Definition mkdir_fs (m : fsmap) (p : path) : exn + fsmap :=
  if has_nul p then inl embedded_null
  else match os_mkdir m p with
       | inr m' => inr m'
       | inl ENOENT => inl (OSError ENOENT p)
       | inl e => if is_dir m p then inr m else inl (OSError e p)
       end.

(** The name of the entry [k] when it lies directly in the directory [c]. *)
Definition child_name (c k : path) : option str :=
  match last k with
  | Some n => if decide (removelast k = c) then Some n else None
  | None => None
  end.

(** [list(p.iterdir())] for a directory [p]; the order is that of the
    operating system. *)
Definition entries (m : fsmap) (p : path) : list path :=
  match resolve m p with
  | inr c => omap (λ k, (λ n, p ++ [n]) <$> child_name c k) (map_to_list m).*1
  | inl _ => []
  end.

(** ** The clock *)

Record datetime : Type := {
  year : N; month : N; day : N;
  hour : N; minute : N; second : N
}.

Definition digit (n : N) : N := 48 + n mod 10.
Definition pad2 (n : N) : str := [digit (n / 10); digit n].
Definition pad4 (n : N) : str :=
  [digit (n / 1000); digit (n / 100); digit (n / 10); digit n].

(** [t.strftime("%Y%m%d_%H%M%S")] *)
Definition strftime (t : datetime) : str :=
  pad4 (year t) ++ pad2 (month t) ++ pad2 (day t) ++ [95]
  ++ pad2 (hour t) ++ pad2 (minute t) ++ pad2 (second t).

(** ** The world, exceptions and the monad of the program *)

Record world : Type := {
  fs : fsmap;
  cwd : path;
  now : datetime;
  stdout : list str
}.

Definition set_fs (m : fsmap) (w : world) : world :=
  {| fs := m; cwd := cwd w; now := now w; stdout := stdout w |}.

Inductive result (A : Type) : Type :=
  | Ok (a : A)
  | Raise (x : exn).
Arguments Ok {A} a.
Arguments Raise {A} x.

Definition M (A : Type) : Type := world → result A * world.

#[export] Instance M_ret : MRet M := λ A a w, (Ok a, w).

#[export] Instance M_bind : MBind M := λ A B k c w,
  match c w with
  | (Ok a, w') => k a w'
  | (Raise x, w') => (Raise x, w')
  end.

Definition raise {A} (x : exn) : M A := λ w, (Raise x, w).

(** [try: body except OSError as e: handler(e)] *)
Definition try_except_OSError {A} (body : M A) (handler : exn → M A) : M A := λ w,
  match body w with
  | (Raise (OSError e f), w') => handler (OSError e f) w'
  | (Raise (OSError_nofile e), w') => handler (OSError_nofile e) w'
  | r => r
  end.

Definition add_stdout (ls : list str) (w : world) : world :=
  {| fs := fs w; cwd := cwd w; now := now w; stdout := stdout w ++ ls |}.

(** [print(s)]: one element of [stdout] per call. *)
Definition print (s : str) : M unit := λ w, (Ok tt, add_stdout [s] w).

Definition print_all (ls : list str) : M unit := λ w, (Ok tt, add_stdout ls w).

(** [Path.cwd()]: [os.getcwd] fails with [FileNotFoundError], without
    file name, when the working directory is no longer there. *)
Definition getcwd : M path := λ w,
  if is_dir (fs w) (cwd w) then (Ok (cwd w), w)
  else (Raise (OSError_nofile ENOENT), w).

(** [datetime.now()] *)
Definition datetime_now : M datetime := λ w, (Ok (now w), w).

(** [p.mkdir(exist_ok=True)] *)
Definition mkdir (p : path) : M unit := λ w,
  match mkdir_fs (fs w) p with
  | inr m' => (Ok tt, set_fs m' w)
  | inl x => (Raise x, w)
  end.

(** [list(p.iterdir())]; it raises when [p] is not a directory. *)
Definition iterdir (p : path) : M (list path) := λ w,
  if has_nul p then (Raise embedded_null, w)
  else match resolve (fs w) p with
       | inr c =>
           match fs w !! c with
           | Some (Dir _) => (Ok (entries (fs w) p), w)
           | Some _ => (Raise (OSError ENOTDIR p), w)
           | None => (Raise (OSError ENOENT p), w)
           end
       | inl e => (Raise (OSError e p), w)
       end.

(** [str(e)] of an exception. For an [OSError] the file name is shown
    between quotes, without the escapes of [repr]. *)
Definition strerror (e : errno) : str :=
  match e with
  | ENOENT => py "[Errno 2] No such file or directory"
  | ENOTDIR => py "[Errno 20] Not a directory"
  | EEXIST => py "[Errno 17] File exists"
  | EACCES => py "[Errno 13] Permission denied"
  end.

Definition exn_str (x : exn) : str :=
  match x with
  | ValueError msg => msg
  | OSError e f => strerror e ++ py ": '" ++ path_str f ++ py "'"
  | OSError_nofile e => strerror e
  end.

(** ** class MLProjectCreator *)

Record MLProjectCreator : Type := { structure : dict (list str) }.

Inductive folders_arg : Type :=
  | FoldersList (l : list str)
  | FoldersDict (d : dict (list str)).

Definition default_structure : dict (list str) :=
  [ (py "data", [py "raw"; py "output"; py "processed"]);
    (py "models", [py "checkpoints"]);
    (py "utils", []);
    (py "logs", []);
    (py "configs", []);
    (py "notebooks", []) ].

(** [MLProjectCreator.__init__] *)
Definition init (folders : option folders_arg) : MLProjectCreator :=
  match folders with
  | None => {| structure := default_structure |}
  | Some (FoldersList l) =>
      {| structure := foldl (λ d folder, dict_set folder [] d) [] l |}
  | Some (FoldersDict d) => {| structure := d |}
  end.

(** A [for] loop whose body may raise. *)
Fixpoint for_each {A} (l : list A) (body : A → M unit) : M unit :=
  match l with
  | [] => mret tt
  | x :: l' => body x;; for_each l' body
  end.

Definition _create_directory_recursive (base_path : path)
    (structure : dict (list str)) : M unit :=
  for_each structure (λ '(folder_name, sub_folders),
    let folder_path := path_join base_path folder_name in
    mkdir folder_path;;
    for_each sub_folders (λ sub_folder,
      let sub_path := path_join folder_path sub_folder in
      mkdir sub_path)).

(** *** Tree printing

    The string literals of the connectors are those of the source file,
    code point by code point. *)

(** ["â””â”€â”€ "] *)
Definition connector_last : str :=
  [226; 8221; 8221; 226; 8221; 8364; 226; 8221; 8364; 32].
(** ["â”œâ”€â”€ "] *)
Definition connector_mid : str :=
  [226; 8221; 339; 226; 8221; 8364; 226; 8221; 8364; 32].
(** ["    "] *)
Definition prefix_blank : str := [32; 32; 32; 32].
(** ["â”‚   "] *)
Definition prefix_bar : str := [226; 8221; 8218; 32; 32; 32].

(** [i == len(l) - 1], on Python integers. *)
Definition is_last_index {A} (i : nat) (l : list A) : bool :=
  bool_decide (Z.of_nat i = (Z.of_nat (length l) - 1)%Z).

(** The lines that [_print_directory_tree(path, prefix, is_last)] prints.
    The recursion of the source follows the file system; here it is
    bounded by [fuel], the number of nested calls allowed. *)
Fixpoint tree_lines (fuel : nat) (m : fsmap) (path : path) (prefix : str)
    (is_last : bool) : list str :=
  match fuel with
  | O => []
  | S fuel' =>
      if is_dir m path then
        let connector := if is_last then connector_last else connector_mid in
        let items := sorted (entries m path) in
        let dirs := filter (λ item, is_dir m item = true) items in
        let files := filter (λ item, is_file m item = true) items in
        [prefix ++ connector ++ path_name path ++ [slash]]
        ++ concat (imap (λ i subdir,
             let is_last_dir :=
               is_last_index i dirs && bool_decide (length files = 0%nat) in
             let new_prefix :=
               prefix ++ (if is_last then prefix_blank else prefix_bar) in
             tree_lines fuel' m subdir new_prefix is_last_dir) dirs)
        ++ imap (λ i file,
             let is_last_file := is_last_index i files in
             let connector :=
               if is_last_file then connector_last else connector_mid in
             let new_prefix :=
               prefix ++ (if is_last then prefix_blank else prefix_bar) in
             new_prefix ++ connector ++ path_name file) files
      else []
  end.

(** A number of nested calls that no directory of [m] exceeds: one more
    than the length of its longest path. *)
Definition depth_bound (m : fsmap) : nat :=
  S (max_list (length <$> (map_to_list m).*1)).

Definition _print_directory_tree (path : path) (prefix : str) (is_last : bool) : M unit :=
  λ w, print_all (tree_lines (depth_bound (fs w)) (fs w) path prefix is_last) w.

(** The two banner lines, as the source file spells them. *)
Definition banner_created : str :=
  [10; 226; 339; 8230; 239; 184; 32] ++ py "Created ML project successfully".
Definition banner_structure : str :=
  [10; 240; 376; 8220; 32] ++ py "Project Structure:".
Definition rule : str := replicate 50 61.

Definition print_project_structure (project_root : path) : M unit :=
  print banner_created;;
  print banner_structure;;
  print rule;;
  print (path_name project_root ++ [slash]);;
  items0 ← iterdir project_root;
  let items := sorted items0 in
  for_each (imap (λ i item, (i, item)) items) (λ '(i, item),
    let is_last := is_last_index i items in
    _print_directory_tree item [] is_last);;
  print rule.

Definition create_project (self : MLProjectCreator) (project_name : str) : M path :=
  if bool_decide (strip project_name = []) then
    raise (ValueError (py "Project name cannot be empty"))
  else
    t ← datetime_now;
    let timestamp := strftime t in
    let full_project_name := project_name ++ py "_" ++ timestamp in
    c ← getcwd;
    let project_root := path_join c full_project_name in
    try_except_OSError
      (mkdir project_root;;
       _create_directory_recursive project_root (structure self);;
       print_project_structure project_root;;
       mret project_root)
      (λ e,
         print (py "Error occurred while creating project: " ++ exn_str e);;
         raise e).

(** The creator that [main] builds from the parsed arguments: [folders]
    is [None] when the flag is absent, and the test [if args.folders]
    also fails on the empty list. *)
Definition creator_of (folders : option (list str)) : MLProjectCreator :=
  match folders with
  | Some (_ :: _ as l) => init (Some (FoldersDict (parse_folders_with_colon l)))
  | _ => init None
  end.

(** The [try] statement of [main] (lines 212 to 231), once
    [parser.parse_args()] has returned the two arguments. The clause
    [except Exception] has no case here: [exn] has no third kind. *)
Definition main (project_name : str) (folders : option (list str)) : M unit :=
  λ w,
  let creator := creator_of folders in
  match create_project creator project_name w with
  | (Ok _, w') => (Ok tt, w')
  | (Raise (ValueError msg), w') =>
      print (py "Input error: " ++ exn_str (ValueError msg)) w'
  | (Raise (OSError e f), w') =>
      print (py "File system error: " ++ exn_str (OSError e f)) w'
  | (Raise (OSError_nofile e), w') =>
      print (py "File system error: " ++ exn_str (OSError_nofile e)) w'
  end.

(** ** Derived descriptions used in the statements *)

(** The directories below the root that [_create_directory_recursive]
    makes, in the order of its calls to [mkdir]. *)
Definition structure_targets (base_path : path) (structure : dict (list str)) : list path :=
  concat ((λ '(folder_name, sub_folders),
             let folder_path := path_join base_path folder_name in
             folder_path :: (path_join folder_path <$> sub_folders)) <$> structure).

(** [mkdir] on each path in turn, until one fails: the file system that
    is reached, and the exception if there is one. *)
Fixpoint mkdir_each (m : fsmap) (ps : list path) : fsmap * option exn :=
  match ps with
  | [] => (m, None)
  | p :: ps' =>
      match mkdir_fs m p with
      | inr m' => mkdir_each m' ps'
      | inl x => (m, Some x)
      end
  end.

(** The root path that [create_project] computes. *)
Definition project_root_of (w : world) (project_name : str) : path :=
  path_join (cwd w) (project_name ++ py "_" ++ strftime (now w)).

(** The lines that [print_project_structure] prints for a root that is
    a directory. *)
Definition structure_lines (m : fsmap) (project_root : path) : list str :=
  let items := sorted (entries m project_root) in
  [banner_created; banner_structure; rule; path_name project_root ++ [slash]]
  ++ concat (imap (λ i item,
       tree_lines (depth_bound m) m item [] (is_last_index i items)) items)
  ++ [rule].

(** The line that the handler of [create_project] prints. *)
Definition error_line (e : errno) (f : path) : str :=
  py "Error occurred while creating project: " ++ exn_str (OSError e f).

(** The world after the [except OSError] clause of [create_project] has
    seen the exception [x]: a [ValueError] passes it by. *)
Definition after_handler (x : exn) (w : world) : world :=
  match x with
  | ValueError _ => w
  | _ => add_stdout [py "Error occurred while creating project: " ++ exn_str x] w
  end.

(** A string is trimmed to another: whitespace is taken off both ends,
    and what is left neither starts nor ends with whitespace. *)
Definition trimmed_to (s t : str) : Prop :=
  ∃ l r, s = l ++ t ++ r
         ∧ Forall (λ c, isspace c = true) l
         ∧ Forall (λ c, isspace c = true) r
         ∧ (∀ c, head t = Some c → isspace c = false)
         ∧ (∀ c, last t = Some c → isspace c = false).

(** A file system in which no entry is named [..], as in every real
    one. *)
Definition wf_fs (m : fsmap) : Prop :=
  ∀ k, is_Some (m !! k) → dotdot ∉ k.

(** The elements of [l] without repetition, each at the place of its
    first occurrence: the order of the keys of a Python dict filled by
    successive assignments. *)
Definition first_occurrences (l : list str) : list str :=
  reverse (remove_dups (reverse l)).

(** The token that denotes a folder and its subfolders in the colon
    syntax that the docstring of [parse_folders_with_colon] describes:
    ["folder_name:sub1,sub2,sub3"]. *)
Definition format_spec (entry : str * list str) : str :=
  entry.1 ++ colon :: join comma entry.2.

(** The values that [datetime.now()] can have, for the years in which
    [%Y] gives four digits. *)
Definition valid_datetime (t : datetime) : Prop :=
  1000 ≤ year t ≤ 9999 ∧ 1 ≤ month t ≤ 12 ∧ 1 ≤ day t ≤ 31
  ∧ hour t < 24 ∧ minute t < 60 ∧ second t < 60.

(** ** Example worlds *)

Definition example_now : datetime :=
  {| year := 2024; month := 3; day := 7; hour := 9; minute := 5; second := 42 |}.

(** An empty home directory, which is the working directory. *)
Definition example_world : world :=
  {| fs := {[ [] := Dir true; [py "home"] := Dir true ]};
     cwd := [py "home"];
     now := example_now;
     stdout := [] |}.

(** The same one second later. *)
Definition later_world : world :=
  {| fs := {[ [] := Dir true; [py "home"] := Dir true ]};
     cwd := [py "home"];
     now := {| year := 2024; month := 3; day := 7;
               hour := 9; minute := 5; second := 43 |};
     stdout := [] |}.

(** A world whose working directory has been removed. *)
Definition gone_world : world :=
  {| fs := {[ [] := Dir true ]};
     cwd := [py "gone"];
     now := example_now;
     stdout := [] |}.

(** The same, with a regular file where the project root would go. *)
Definition occupied_world : world :=
  {| fs := {[ [] := Dir true; [py "home"] := Dir true;
              [py "home"; py "a_20240307_090542"] := File ]};
     cwd := [py "home"];
     now := example_now;
     stdout := [] |}.

(** A structure whose second folder lies in a directory that is not
    made: its [mkdir] fails. *)
Definition broken_structure : dict (list str) :=
  [ (py "data", [py "raw"]); (py "x/y", []); (py "logs", []) ].

(** A directory [/root] that holds an empty directory [a] and a regular
    file [b.txt]. *)
Definition tree_world : world :=
  {| fs := {[ [] := Dir true; [py "root"] := Dir true;
              [py "root"; py "a"] := Dir true;
              [py "root"; py "b.txt"] := File ]};
     cwd := [];
     now := example_now;
     stdout := [] |}.

(** * Properties *)

(** A closed decidable proposition, by evaluation. *)
Ltac by_decide :=
  lazymatch goal with
  | |- ?P => apply (bool_decide_unpack P); vm_compute; exact I
  end.

(** ** Strings *)

Section strings.
Implicit Types (s a b : str) (sep c : N).


Lemma split_first_app sep a b :
  sep ∉ a → split_first sep (a ++ sep :: b) = (a, b).
Proof.
  induction a as [|c a IH]; intros Hn; simpl.
  - by rewrite N.eqb_refl.
  - apply not_elem_of_cons in Hn as [Hc Hn].
    destruct (N.eqb_spec c sep) as [->|_]; [done|].
    by rewrite IH.
Qed.



(** No piece of a split holds the separator. *)
Lemma split_no_sep sep s : Forall (λ p, sep ∉ p) (split sep s).
Proof.
  induction s as [|c s IH]; simpl.
  - constructor; [apply not_elem_of_nil|constructor].
  - destruct (N.eqb_spec c sep) as [->|Hne].
    + constructor; [apply not_elem_of_nil|done].
    + destruct (split sep s) as [|p ps]; inversion IH; subst.
      * constructor; [|constructor]. rewrite not_elem_of_cons.
        split; [done|apply not_elem_of_nil].
      * constructor; [|done]. rewrite not_elem_of_cons. done.
Qed.

Lemma split_app_sep sep a s :
  sep ∉ a → split sep (a ++ sep :: s) = a :: split sep s.
Proof.
  induction a as [|c a IH]; intros Hn; simpl.
  - by rewrite N.eqb_refl.
  - apply not_elem_of_cons in Hn as [Hc Hn].
    destruct (N.eqb_spec c sep) as [->|_]; [done|].
    by rewrite IH.
Qed.

Lemma split_no_sep_id sep a : sep ∉ a → split sep a = [a].
Proof.
  induction a as [|c a IH]; intros Hn; simpl; [done|].
  apply not_elem_of_cons in Hn as [Hc Hn].
  destruct (N.eqb_spec c sep) as [->|_]; [done|].
  by rewrite IH.
Qed.

(** Splitting a join of separator-free pieces gives the pieces back. *)
Lemma split_join sep (ps : list str) :
  ps ≠ [] → Forall (λ p, sep ∉ p) ps → split sep (join sep ps) = ps.
Proof.
  induction ps as [|p ps IH]; intros Hne Hall; [done|].
  inversion Hall as [|? ? Hp Hps]; subst.
  destruct ps as [|q ps].
  - simpl. by apply split_no_sep_id.
  - change (join sep (p :: q :: ps)) with (p ++ sep :: join sep (q :: ps)).
    rewrite split_app_sep by done. by rewrite IH.
Qed.

Lemma lstrip_spec s :
  ∃ l, s = l ++ lstrip s ∧ Forall (λ c, isspace c = true) l
       ∧ (∀ c, head (lstrip s) = Some c → isspace c = false).
Proof.
  induction s as [|c s (l & Hs & Hl & Hh)]; simpl.
  - exists []. split_and!; [done|constructor|done].
  - destruct (isspace c) eqn:E.
    + exists (c :: l). split_and!; [simpl; by f_equal|by constructor|done].
    + exists []. split_and!; [done|constructor|].
      intros c' [= <-]. done.
Qed.

Lemma lstrip_app_space l s :
  Forall (λ c, isspace c = true) l → lstrip (l ++ s) = lstrip s.
Proof. induction 1 as [|c l Hc _ IH]; simpl; [done|]. by rewrite Hc. Qed.

Lemma lstrip_all_space l :
  Forall (λ c, isspace c = true) l → lstrip l = [].
Proof. intros H. rewrite <- (app_nil_r l). by rewrite lstrip_app_space. Qed.

Lemma lstrip_app_nonempty s r : lstrip s ≠ [] → lstrip (s ++ r) = lstrip s ++ r.
Proof.
  induction s as [|c s IH]; simpl; [done|].
  destruct (isspace c); [done|]. done.
Qed.

Lemma lstrip_nil_all_space s :
  lstrip s = [] → Forall (λ c, isspace c = true) s.
Proof.
  induction s as [|c s IH]; simpl; [constructor|].
  destruct (isspace c) eqn:E; [|done]. intros H. constructor; auto.
Qed.

Lemma rstrip_app_space s r :
  Forall (λ c, isspace c = true) r → rstrip (s ++ r) = rstrip s.
Proof.
  intros H. unfold rstrip. rewrite reverse_app.
  rewrite lstrip_app_space; [done|]. by apply Forall_reverse.
Qed.

(** Surrounding whitespace does not change what [strip] returns. *)
Lemma strip_pad l s r :
  Forall (λ c, isspace c = true) l → Forall (λ c, isspace c = true) r →
  strip (l ++ s ++ r) = strip s.
Proof.
  intros Hl Hr. unfold strip. rewrite lstrip_app_space by done.
  destruct (decide (lstrip s = [])) as [E|E].
  - rewrite E. rewrite lstrip_all_space; [done|].
    apply Forall_app. split; [by apply lstrip_nil_all_space|done].
  - rewrite lstrip_app_nonempty by done. by apply rstrip_app_space.
Qed.

(** [strip] removes a whitespace prefix and a whitespace suffix, and
    what is left neither starts nor ends with whitespace. *)
Lemma strip_spec s :
  ∃ l r, s = l ++ strip s ++ r
         ∧ Forall (λ c, isspace c = true) l
         ∧ Forall (λ c, isspace c = true) r
         ∧ (∀ c, head (strip s) = Some c → isspace c = false)
         ∧ (∀ c, last (strip s) = Some c → isspace c = false).
Proof.
  destruct (lstrip_spec s) as (l & Hs & Hl & Hh).
  destruct (lstrip_spec (reverse (lstrip s))) as (r & Hr & Hrs & Hrh).
  exists l, (reverse r). unfold strip, rstrip.
  set (t := lstrip (reverse (lstrip s))) in *.
  assert (Ht : lstrip s = reverse t ++ reverse r).
  { rewrite <- reverse_app, <- Hr. by rewrite reverse_involutive. }
  split_and!.
  - by rewrite <- Ht.
  - done.
  - by apply Forall_reverse.
  - intros c Hc. destruct (reverse t) as [|c' t'] eqn:Et; [done|].
    simpl in Hc. injection Hc as ->. apply Hh. by rewrite Ht.
  - intros c Hc. rewrite last_reverse in Hc. by apply Hrh.
Qed.
End strings.

(** ** Dicts *)

Section dicts.
Context {V : Type}.
Implicit Types (d : dict V) (k : str) (v : V).

Lemma dict_get_set_eq d k v : dict_get (dict_set k v d) k = Some v.
Proof.
  induction d as [|[k' v'] d IH]; simpl.
  - by rewrite decide_True.
  - destruct (decide (k = k')) as [->|Hne]; simpl.
    + by rewrite decide_True.
    + by rewrite decide_False.
Qed.

Lemma dict_get_set_ne d k k' v :
  k ≠ k' → dict_get (dict_set k v d) k' = dict_get d k'.
Proof.
  intros Hne. induction d as [|[k0 v0] d IH]; simpl.
  - by rewrite decide_False.
  - destruct (decide (k = k0)) as [->|Hne0]; simpl.
    + by rewrite !decide_False.
    + by rewrite IH.
Qed.

Lemma elem_of_dict_keys_set d k v x :
  x ∈ dict_keys (dict_set k v d) ↔ x = k ∨ x ∈ dict_keys d.
Proof.
  unfold dict_keys. induction d as [|[k0 v0] d IH]; simpl.
  - rewrite list_elem_of_singleton, elem_of_nil. tauto.
  - destruct (decide (k = k0)) as [->|Hne]; simpl.
    + rewrite !elem_of_cons. tauto.
    + rewrite !elem_of_cons, IH. tauto.
Qed.

Lemma NoDup_dict_keys_set d k v :
  NoDup (dict_keys d) → NoDup (dict_keys (dict_set k v d)).
Proof.
  unfold dict_keys. induction d as [|[k0 v0] d IH]; simpl; intros Hnd.
  - apply NoDup_singleton.
  - apply NoDup_cons in Hnd as [Hk0 Hnd].
    destruct (decide (k = k0)) as [->|Hne]; simpl.
    + by apply NoDup_cons.
    + apply NoDup_cons. split; [|by apply IH].
      intros Hin. apply (elem_of_dict_keys_set d k v k0) in Hin as [?|?]; auto.
Qed.

Lemma dict_get_elem_of d k v :
  NoDup (dict_keys d) → (k, v) ∈ d → dict_get d k = Some v.
Proof.
  unfold dict_keys. induction d as [|[k0 v0] d IH]; simpl; intros Hnd Hin.
  - by apply elem_of_nil in Hin.
  - apply NoDup_cons in Hnd as [Hk0 Hnd].
    apply elem_of_cons in Hin as [[= -> ->]|Hin].
    + by rewrite decide_True.
    + rewrite decide_False; [by apply IH|].
      intros ->. apply Hk0. apply list_elem_of_fmap. by exists (k0, v).
Qed.
End dicts.

(** ** The specification parser *)


Lemma parse_spec_eq d spec :
  parse_spec d spec = dict_set (folder_name_of spec) (sub_folders_for spec) d.
Proof.
  unfold parse_spec, folder_name_of, sub_folders_for.
  case_bool_decide; [|done]. by destruct (split_first colon spec).
Qed.

Lemma parse_snoc specs tok :
  parse_folders_with_colon (specs ++ [tok])
  = dict_set (folder_name_of tok) (sub_folders_for tok) (parse_folders_with_colon specs).
Proof.
  unfold parse_folders_with_colon. rewrite foldl_app. simpl. apply parse_spec_eq.
Qed.

Lemma parse_keys_NoDup specs : NoDup (dict_keys (parse_folders_with_colon specs)).
Proof.
  induction specs as [|tok specs IH] using rev_ind.
  - constructor.
  - rewrite parse_snoc. by apply NoDup_dict_keys_set.
Qed.

Lemma elem_of_parse_keys specs k :
  k ∈ dict_keys (parse_folders_with_colon specs)
  ↔ ∃ tok, tok ∈ specs ∧ k = folder_name_of tok.
Proof.
  induction specs as [|tok specs IH] using rev_ind.
  - simpl. split; [by intros ?%elem_of_nil|]. by intros (? & ?%elem_of_nil & _).
  - rewrite parse_snoc, elem_of_dict_keys_set, IH. split.
    + intros [->|(t & Ht & ->)].
      * exists tok. split; [|done]. apply elem_of_app. right. by apply list_elem_of_singleton.
      * exists t. split; [|done]. apply elem_of_app. by left.
    + intros (t & Ht & ->). apply elem_of_app in Ht as [Ht|Ht].
      * right. by exists t.
      * left. apply list_elem_of_singleton in Ht. by subst.
Qed.

Lemma folder_name_of_nonempty tok :
  tok ≠ [] → head tok ≠ Some colon → folder_name_of tok ≠ [].
Proof.
  intros Hne Hhd. unfold folder_name_of. case_bool_decide as Hin; [|done].
  destruct tok as [|c tok]; [done|]. simpl.
  destruct (N.eqb_spec c colon) as [->|Hc]; [done|].
  by destruct (split_first colon tok).
Qed.

Lemma parse_last_wins pre tok post :
  Forall (λ t, folder_name_of t ≠ folder_name_of tok) post →
  dict_get (parse_folders_with_colon (pre ++ tok :: post)) (folder_name_of tok)
  = Some (sub_folders_for tok).
Proof.
  induction post as [|t post IH] using rev_ind; intros Hall.
  - rewrite parse_snoc. apply dict_get_set_eq.
  - apply Forall_app in Hall as [Hall Ht]. rewrite Forall_singleton in Ht.
    rewrite app_comm_cons, app_assoc, parse_snoc.
    rewrite dict_get_set_ne by exact Ht. by apply IH.
Qed.

Lemma padded_no_comma a b : padded a b → comma ∉ b → comma ∉ a.
Proof.
  intros (l & r & Hl & Hr & ->) Hb.
  assert (Hws : ∀ x : str, Forall (λ c, isspace c = true) x → comma ∉ x).
  { intros x Hx Hin. rewrite Forall_forall in Hx. specialize (Hx _ Hin). discriminate Hx. }
  rewrite !elem_of_app. intros [?|[?|?]]; [by apply (Hws l)|done|by apply (Hws r)].
Qed.

Lemma sub_folders_of_join ps :
  Forall (λ p, comma ∉ p) ps →
  sub_folders_of (join comma ps) = strip <$> filter (λ p, strip p ≠ []) ps.
Proof.
  intros Hall. unfold sub_folders_of. destruct ps as [|p ps].
  - reflexivity.
  - by rewrite split_join.
Qed.

Lemma strip_filter_padded ps1 ps2 :
  Forall2 padded ps1 ps2 →
  strip <$> filter (λ p, strip p ≠ []) ps1 = strip <$> filter (λ p, strip p ≠ []) ps2.
Proof.
  induction 1 as [|a b ps1 ps2 (l & r & Hl & Hr & ->) _ IH]; [done|].
  assert (Hs : strip (l ++ b ++ r) = strip b) by by apply strip_pad.
  rewrite !filter_cons.
  destruct (decide (strip (l ++ b ++ r) ≠ [])) as [H1|H1];
    destruct (decide (strip b ≠ [])) as [H2|H2];
    try (rewrite Hs in H1; contradiction).
  - rewrite !fmap_cons. by rewrite Hs, IH.
  - done.
Qed.

Lemma parse_spec_ws_variant d t1 t2 :
  ws_variant t1 t2 → parse_spec d t1 = parse_spec d t2.
Proof.
  destruct 1 as [t|name ps1 ps2 Hname Hps2 Hpad]; [done|].
  assert (Hps1 : Forall (λ p, comma ∉ p) ps1).
  { clear Hname. induction Hpad as [|a b ps1 ps2 Hab _ IH]; [constructor|].
    inversion Hps2; subst. constructor; [by eapply padded_no_comma|by apply IH]. }
  unfold parse_spec. rewrite !bool_decide_eq_true_2 by set_solver.
  rewrite !split_first_app by done.
  rewrite !sub_folders_of_join by done.
  by rewrite (strip_filter_padded ps1 ps2).
Qed.

(** C3, as the code has it: the parser does not validate folder names,
    and the key of a token is what stands before its first colon (the
    whole token when it has none). When no token is empty or starts with
    a colon, every key of the returned mapping is a non-empty string. *)
Theorem parse_keys_nonempty specs :
  Forall (λ tok, tok ≠ [] ∧ head tok ≠ Some colon) specs →
  Forall (λ k, k ≠ []) (dict_keys (parse_folders_with_colon specs)).
Proof.
  intros Hall. apply Forall_forall. intros k Hk.
  apply elem_of_parse_keys in Hk as (tok & Htok & ->).
  rewrite Forall_forall in Hall. destruct (Hall tok Htok) as [Hne Hhd].
  by apply folder_name_of_nonempty.
Qed.

Lemma parse_keys_nonempty_witness :
  Forall (λ tok, tok ≠ [] ∧ head tok ≠ Some colon)
    [py "data:raw,processed"; py "scripts"]
  ∧ Forall (λ k, k ≠ [])
      (dict_keys (parse_folders_with_colon [py "data:raw,processed"; py "scripts"])).
Proof.
  assert (H : Forall (λ tok, tok ≠ [] ∧ head tok ≠ Some colon)
                [py "data:raw,processed"; py "scripts"]).
  { repeat constructor; discriminate. }
  split; [exact H|]. exact (parse_keys_nonempty _ H).
Defined.

(** C3 as stated fails: a token that starts with a colon, and the empty
    token, both give the empty string as a key. *)
Lemma parse_keys_empty_counterexample :
  ¬ Forall (λ k, k ≠ []) (dict_keys (parse_folders_with_colon [py ":raw"]))
  ∧ ¬ Forall (λ k, k ≠ []) (dict_keys (parse_folders_with_colon [py ""])).
Proof.
  split; intros H; apply Forall_inv in H; by apply H.
Qed.

(** [strip] leaves alone a string that neither starts nor ends with
    whitespace. *)
Lemma strip_id (t : str) :
  (∀ c, head t = Some c → isspace c = false) →
  (∀ c, last t = Some c → isspace c = false) →
  strip t = t.
Proof.
  intros Hh Hl.
  assert (Hls : ∀ u : str, (∀ c, head u = Some c → isspace c = false) → lstrip u = u).
  { intros [|c u] Hu; [done|]. simpl. by rewrite (Hu c eq_refl). }
  unfold strip, rstrip. rewrite (Hls t Hh). rewrite Hls.
  - apply reverse_involutive.
  - intros c Hc. apply Hl. rewrite <- (reverse_involutive t).
    by rewrite last_reverse.
Qed.


Lemma trimmed_to_strip (s t : str) : trimmed_to s t → t = strip s.
Proof.
  intros (l & r & -> & Hl & Hr & Hh & Hla).
  rewrite strip_pad by done. symmetry. by apply strip_id.
Qed.




(** C5: whitespace around the pieces of the subfolder part of a token
    does not change the mapping that the parser returns. *)
Theorem parse_whitespace_invariant specs1 specs2 :
  Forall2 ws_variant specs1 specs2 →
  parse_folders_with_colon specs1 = parse_folders_with_colon specs2.
Proof.
  unfold parse_folders_with_colon. generalize ([] : dict (list str)) as d.
  intros d H. revert d.
  induction H as [|t1 t2 specs1 specs2 Ht _ IH]; intros d; simpl; [done|].
  rewrite (parse_spec_ws_variant d t1 t2 Ht). apply IH.
Qed.

Lemma parse_whitespace_invariant_witness :
  Forall2 ws_variant [py "data: raw , processed "] [py "data:raw,processed"]
  ∧ parse_folders_with_colon [py "data: raw , processed "]
    = parse_folders_with_colon [py "data:raw,processed"].
Proof.
  assert (H : Forall2 ws_variant [py "data: raw , processed "] [py "data:raw,processed"]).
  { constructor; [|constructor].
    apply (ws_subs (py "data") [py " raw "; py " processed "] [py "raw"; py "processed"]).
    - by_decide.
    - constructor; [|constructor; [|constructor]]; by_decide.
    - assert (Hsp : Forall (λ c, isspace c = true) [32]) by by_decide.
      apply Forall2_cons_2; [|apply Forall2_cons_2; [|apply Forall2_nil_2]];
        exists [32], [32]; (split; [exact Hsp|split; [exact Hsp|reflexivity]]). }
  split; [exact H|]. exact (parse_whitespace_invariant _ _ H).
Defined.

(** C6: when two tokens have the same folder name, the mapping gives
    that name the subfolder list of the later one, and no other entry
    for that name is left in it. *)
Theorem parse_duplicate_last_wins pre tok1 mid tok2 post :
  folder_name_of tok1 = folder_name_of tok2 →
  Forall (λ t, folder_name_of t ≠ folder_name_of tok2) post →
  let d := parse_folders_with_colon (pre ++ tok1 :: mid ++ tok2 :: post) in
  dict_get d (folder_name_of tok2) = Some (sub_folders_for tok2)
  ∧ (∀ v, (folder_name_of tok2, v) ∈ d → v = sub_folders_for tok2)
  ∧ (sub_folders_for tok1 ≠ sub_folders_for tok2 →
     (folder_name_of tok1, sub_folders_for tok1) ∉ d).
Proof.
  intros Hname Hpost d.
  assert (Hget : dict_get d (folder_name_of tok2) = Some (sub_folders_for tok2)).
  { subst d.
    replace (pre ++ tok1 :: mid ++ tok2 :: post)
      with ((pre ++ tok1 :: mid) ++ tok2 :: post).
    2: { by rewrite <- app_assoc. }
    by apply parse_last_wins. }
  assert (Huniq : ∀ v, (folder_name_of tok2, v) ∈ d → v = sub_folders_for tok2).
  { intros v Hv. apply dict_get_elem_of in Hv; [congruence|].
    apply parse_keys_NoDup. }
  split_and!; [done|done|].
  intros Hne Hin. rewrite Hname in Hin. by apply Huniq in Hin.
Qed.

Lemma parse_duplicate_last_wins_witness :
  let d := parse_folders_with_colon
             [py "data:raw"; py "scripts"; py "data:processed"; py "logs"] in
  dict_get d (py "data") = Some [py "processed"]
  ∧ (py "data", [py "raw"]) ∉ d.
Proof.
  destruct (parse_duplicate_last_wins [] (py "data:raw") [py "scripts"]
              (py "data:processed") [py "logs"]) as (Hget & _ & Hgone).
  - reflexivity.
  - repeat constructor. discriminate.
  - split; [exact Hget|]. apply Hgone. discriminate.
Defined.

(** ** The file system *)

Section file_system.
Implicit Types (m : fsmap) (p c acc : path) (e : errno).

Lemma last_Some_removelast p (n : str) :
  last p = Some n → p = removelast p ++ [n].
Proof.
  intros H. apply last_Some in H as [q ->]. by rewrite removelast_last.
Qed.

Lemma resolve_from_app m acc xs ys :
  resolve_from m acc (xs ++ ys)
  = match resolve_from m acc xs with
    | inr c => resolve_from m c ys
    | inl e => inl e
    end.
Proof.
  revert acc. induction xs as [|x xs IH]; intros acc; simpl; [done|].
  destruct (m !! acc) as [[w| |]|]; auto.
Qed.

Lemma resolve_from_mono m m' acc xs c :
  m ⊆ m' → resolve_from m acc xs = inr c → resolve_from m' acc xs = inr c.
Proof.
  intros Hsub. revert acc. induction xs as [|x xs IH]; intros acc; simpl; [done|].
  destruct (m !! acc) as [[w| |]|] eqn:E; try done.
  rewrite (lookup_weaken _ _ _ _ E Hsub). apply IH.
Qed.

Lemma is_dir_no_nul m p : is_dir m p = true → has_nul p = false.
Proof. unfold is_dir. by destruct (has_nul p). Qed.

(** Directories stay directories when entries are added. *)
Lemma is_dir_mono m m' p : m ⊆ m' → is_dir m p = true → is_dir m' p = true.
Proof.
  intros Hsub. unfold is_dir, resolve. destruct (has_nul p); [done|].
  destruct (resolve_from m [] p) as [e|c] eqn:E; [done|].
  rewrite (resolve_from_mono _ _ _ _ _ Hsub E).
  destruct (m !! c) as [[w| |]|] eqn:Ec; try done.
  by rewrite (lookup_weaken _ _ _ _ Ec Hsub).
Qed.

Lemma os_mkdir_inr m p m' :
  os_mkdir m p = inr m' →
  ∃ par n, p = removelast p ++ [n] ∧ resolve m (removelast p) = inr par
           ∧ m !! par = Some (Dir true) ∧ n ≠ dotdot
           ∧ m !! (par ++ [n]) = None ∧ m' = <[par ++ [n] := Dir true]> m.
Proof.
  unfold os_mkdir. destruct (last p) as [n|] eqn:El; [|done].
  destruct (resolve m (removelast p)) as [e|par] eqn:Er; [done|].
  destruct (m !! par) as [[w| |]|] eqn:Ep; try done.
  destruct (decide (n = dotdot)); [done|].
  destruct (m !! (par ++ [n])) eqn:Ec; [done|].
  destruct w; [|done]. intros [= <-].
  exists par, n. split_and!; try done. by apply last_Some_removelast.
Qed.

Lemma mkdir_fs_inr m p m' :
  mkdir_fs m p = inr m' →
  has_nul p = false ∧ (os_mkdir m p = inr m' ∨ (m' = m ∧ is_dir m p = true)).
Proof.
  unfold mkdir_fs. destruct (has_nul p); [done|].
  destruct (os_mkdir m p) as [e|m''] eqn:E.
  - destruct e; try done; destruct (is_dir m p); try done;
      intros [= <-]; (split; [done|by right]).
  - intros [= <-]. split; [done|]. by left.
Qed.

(** What a failing [mkdir] raises: the [ValueError] of a path with a
    NUL character, or an [OSError] that names the path. *)
Lemma mkdir_fs_inl m p x :
  mkdir_fs m p = inl x →
  (has_nul p = true ∧ x = embedded_null)
  ∨ (has_nul p = false ∧ ∃ e, x = OSError e p).
Proof.
  unfold mkdir_fs. destruct (has_nul p).
  - intros [= <-]. by left.
  - intros H. right. split; [done|].
    destruct (os_mkdir m p) as [e|m'']; [|done].
    destruct e; try destruct (is_dir m p); try done;
      injection H as <-; by eexists.
Qed.

(** A successful [mkdir] only adds an entry. *)
Lemma mkdir_fs_subseteq m p m' : mkdir_fs m p = inr m' → m ⊆ m'.
Proof.
  intros [_ [H|[-> _]]]%mkdir_fs_inr; [|done].
  apply os_mkdir_inr in H as (par & n & _ & _ & _ & _ & Hnone & ->).
  by apply insert_subseteq.
Qed.

(** After a successful [mkdir] the path is a directory. *)
Lemma mkdir_fs_is_dir m p m' : mkdir_fs m p = inr m' → is_dir m' p = true.
Proof.
  intros [Hnul [H|[-> H]]]%mkdir_fs_inr; [|done].
  apply os_mkdir_inr in H as (par & n & Hp & Hr & Hpar & Hn & Hnone & ->).
  assert (Hsub : m ⊆ <[par ++ [n] := Dir true]> m) by by apply insert_subseteq.
  unfold is_dir, resolve. rewrite Hnul. rewrite Hp, resolve_from_app.
  rewrite (resolve_from_mono _ _ _ _ _ Hsub Hr). simpl.
  rewrite (lookup_weaken _ _ _ _ Hpar Hsub).
  rewrite decide_False by done. by rewrite lookup_insert_eq.
Qed.

(** [mkdir] on a directory that exists succeeds and changes nothing. *)
Lemma is_dir_mkdir_fs m p : is_dir m p = true → mkdir_fs m p = inr m.
Proof.
  intros Hd. unfold mkdir_fs.
  pose proof (is_dir_no_nul _ _ Hd) as Hnul. rewrite Hnul.
  assert (He : os_mkdir m p = inl EEXIST); [|by rewrite He, Hd].
  unfold os_mkdir. destruct (last p) as [n|] eqn:El; [|done].
  apply last_Some_removelast in El.
  unfold is_dir, resolve in Hd. rewrite Hnul in Hd.
  rewrite El, resolve_from_app in Hd.
  unfold resolve. destruct (resolve_from m [] (removelast p)) as [e|par]; [done|].
  simpl in Hd. destruct (m !! par) as [[w| |]|]; try done.
  destruct (decide (n = dotdot)); [done|].
  by destruct (m !! (par ++ [n])) as [[?| |]|].
Qed.

Lemma mkdir_fs_idempotent m p m' : mkdir_fs m p = inr m' → mkdir_fs m' p = inr m'.
Proof. intros H. by apply is_dir_mkdir_fs, (mkdir_fs_is_dir m). Qed.
End file_system.

(** ** The monad and the loops *)

Section monad.
Implicit Types (w : world) (m : fsmap).

Lemma set_fs_id w : set_fs (fs w) w = w.
Proof. by destruct w. Qed.

Lemma set_fs_set_fs m m' w : set_fs m' (set_fs m w) = set_fs m' w.
Proof. done. Qed.

Lemma add_stdout_nil w : add_stdout [] w = w.
Proof. destruct w. unfold add_stdout. simpl. by rewrite app_nil_r. Qed.

Lemma add_stdout_add_stdout l1 l2 w :
  add_stdout l2 (add_stdout l1 w) = add_stdout (l1 ++ l2) w.
Proof. unfold add_stdout. simpl. by rewrite app_assoc. Qed.

Lemma for_each_app {A} (l1 l2 : list A) (body : A → M unit) w :
  for_each (l1 ++ l2) body w = (for_each l1 body;; for_each l2 body) w.
Proof.
  revert w. induction l1 as [|x l1 IH]; intros w; [done|].
  simpl. unfold mbind, M_bind. destruct (body x w) as [[[]|x0] w']; [|done].
  apply IH.
Qed.

Lemma for_each_ext {A} (l : list A) (body1 body2 : A → M unit) w :
  (∀ x w', body1 x w' = body2 x w') → for_each l body1 w = for_each l body2 w.
Proof.
  intros Hext. revert w. induction l as [|x l IH]; intros w; [done|].
  simpl. unfold mbind, M_bind. rewrite Hext.
  destruct (body2 x w) as [[[]|x0] w']; [|done]. apply IH.
Qed.

Lemma for_each_fmap {A B} (g : A → B) (l : list A) (body : B → M unit) w :
  for_each (g <$> l) body w = for_each l (λ x, body (g x)) w.
Proof.
  revert w. induction l as [|x l IH]; intros w; [done|].
  simpl. unfold mbind, M_bind.
  destruct (body (g x) w) as [[[]|x0] w']; [|done]. apply IH.
Qed.

Lemma for_each_concat {A B} (h : A → list B) (l : list A) (body : B → M unit) w :
  for_each (concat (h <$> l)) body w = for_each l (λ x, for_each (h x) body) w.
Proof.
  revert w. induction l as [|x l IH]; intros w; [done|].
  simpl. rewrite for_each_app. unfold mbind, M_bind.
  destruct (for_each (h x) body w) as [[[]|x0] w']; [|done]. apply IH.
Qed.

(** A loop of [mkdir] stops at the first failure. *)
Lemma for_each_mkdir ps w :
  for_each ps mkdir w
  = match mkdir_each (fs w) ps with
    | (m', None) => (Ok tt, set_fs m' w)
    | (m', Some x) => (Raise x, set_fs m' w)
    end.
Proof.
  revert w. induction ps as [|p ps IH]; intros w; simpl.
  - by rewrite set_fs_id.
  - unfold mbind, M_bind, mkdir.
    destruct (mkdir_fs (fs w) p) as [x|m'] eqn:E.
    + by rewrite set_fs_id.
    + rewrite IH. simpl. by destruct (mkdir_each m' ps) as [m'' [x|]].
Qed.

Lemma create_directory_recursive_mkdir_each base st w :
  _create_directory_recursive base st w
  = for_each (structure_targets base st) mkdir w.
Proof.
  unfold _create_directory_recursive, structure_targets.
  rewrite for_each_concat. apply for_each_ext.
  intros [folder_name sub_folders] w'. simpl.
  unfold mbind, M_bind. destruct (mkdir _ w') as [[[]|x0] w'']; [|done].
  by rewrite for_each_fmap.
Qed.

(** A loop that only prints. *)
Lemma for_each_print_all {A} (l : list A) (body : A → M unit)
    (g : fsmap → A → list str) w :
  (∀ x w', body x w' = print_all (g (fs w') x) w') →
  for_each l body w = (Ok tt, add_stdout (concat (g (fs w) <$> l)) w).
Proof.
  intros Hbody. revert w. induction l as [|x l IH]; intros w; simpl.
  - by rewrite add_stdout_nil.
  - unfold mbind, M_bind. rewrite Hbody. unfold print_all.
    rewrite IH. by rewrite add_stdout_add_stdout.
Qed.
End monad.

(** ** Sequences of [mkdir] *)

Section mkdir_each.
Implicit Types (m : fsmap) (p : path) (ps : list path).

Lemma mkdir_each_subseteq m ps m' r : mkdir_each m ps = (m', r) → m ⊆ m'.
Proof.
  revert m. induction ps as [|p ps IH]; intros m; simpl.
  - by intros [= <- _].
  - destruct (mkdir_fs m p) as [e|m1] eqn:E.
    + by intros [= <- _].
    + intros H. etrans; [by eapply mkdir_fs_subseteq|by apply IH].
Qed.

(** When the sequence succeeds every path is a directory at the end. *)
Lemma mkdir_each_all_dirs m ps m' :
  mkdir_each m ps = (m', None) → Forall (λ p, is_dir m' p = true) ps.
Proof.
  revert m. induction ps as [|p ps IH]; intros m; simpl; [constructor|].
  destruct (mkdir_fs m p) as [e|m1] eqn:E; [done|]. intros H.
  constructor; [|by eapply IH].
  eapply is_dir_mono; [by eapply mkdir_each_subseteq|by eapply mkdir_fs_is_dir].
Qed.

(** On directories that all exist the sequence changes nothing. *)
Lemma mkdir_each_noop m ps :
  Forall (λ p, is_dir m p = true) ps → mkdir_each m ps = (m, None).
Proof.
  induction 1 as [|p ps Hp _ IH]; simpl; [done|].
  by rewrite (is_dir_mkdir_fs _ _ Hp).
Qed.

(** When the sequence fails, the paths before the failing one were
    made (or existed), the failing [mkdir] changed nothing, and the
    paths after it were not tried. *)
Lemma mkdir_each_failure m ps m' x :
  mkdir_each m ps = (m', Some x) →
  ∃ before p after,
    ps = before ++ p :: after
    ∧ mkdir_each m before = (m', None)
    ∧ mkdir_fs m' p = inl x.
Proof.
  revert m. induction ps as [|q ps IH]; intros m; simpl; [done|].
  destruct (mkdir_fs m q) as [x'|m1] eqn:E.
  - intros [= <- <-]. by exists [], q, ps.
  - intros (before & p & after & -> & Hb & He)%IH.
    exists (q :: before), p, after. simpl. by rewrite E.
Qed.
End mkdir_each.

(** ** Printing the structure *)

Lemma print_project_structure_dir root w :
  is_dir (fs w) root = true →
  print_project_structure root w
  = (Ok tt, add_stdout (structure_lines (fs w) root) w).
Proof.
  intros Hd. unfold print_project_structure, structure_lines.
  unfold mbind, M_bind, print, iterdir. cbn [fs add_stdout].
  unfold is_dir in Hd. destruct (has_nul root); [done|].
  destruct (resolve (fs w) root) as [e|c]; [done|].
  destruct (fs w !! c) as [[wr| |]|]; try done.
  erewrite (for_each_print_all _ _
    (λ m x, tree_lines (depth_bound m) m x.2 []
              (is_last_index x.1 (sorted (entries (fs w) root))))).
  2: { by intros [i item] w'. }
  cbn [fs add_stdout]. rewrite !add_stdout_add_stdout.
  rewrite fmap_imap. done.
Qed.

(** ** [create_project] *)

Lemma create_project_empty self name w :
  strip name = [] →
  create_project self name w
  = (Raise (ValueError (py "Project name cannot be empty")), w).
Proof.
  intros He. unfold create_project. by rewrite bool_decide_eq_true_2.
Qed.

(** The effect of [create_project] on a name that passes the check, in
    terms of the sequence of directories it makes. *)
Lemma create_project_unfold self name w :
  strip name ≠ [] →
  create_project self name w
  = if is_dir (fs w) (cwd w) then
      match mkdir_each (fs w)
              (project_root_of w name
               :: structure_targets (project_root_of w name) (structure self)) with
      | (m', None) =>
          (Ok (project_root_of w name),
           add_stdout (structure_lines m' (project_root_of w name)) (set_fs m' w))
      | (m', Some x) => (Raise x, after_handler x (set_fs m' w))
      end
    else (Raise (OSError_nofile ENOENT), w).
Proof.
  intros Hne. unfold create_project. rewrite bool_decide_eq_false_2 by done.
  unfold mbind at 1 2. unfold M_bind at 1 2. unfold datetime_now, getcwd.
  destruct (is_dir (fs w) (cwd w)); [|done].
  fold (project_root_of w name). set (root := project_root_of w name).
  unfold try_except_OSError.
  destruct (mkdir_each (fs w) (root :: structure_targets root (structure self)))
    as [m' r] eqn:Hseq.
  pose proof (for_each_mkdir (root :: structure_targets root (structure self)) w) as Hloop.
  rewrite Hseq in Hloop. simpl in Hloop. unfold mbind, M_bind in Hloop |- *.
  destruct (mkdir root w) as [[[]|x] w1] eqn:Hroot.
  - rewrite create_directory_recursive_mkdir_each.
    destruct r as [x|].
    + rewrite Hloop. by destruct x.
    + rewrite Hloop.
      assert (Hd : is_dir m' root = true).
      { apply mkdir_each_all_dirs in Hseq. by apply Forall_inv in Hseq. }
      rewrite print_project_structure_dir by done. done.
  - destruct r as [x'|]; [|done]. injection Hloop as -> ->. by destruct x'.
Qed.

(** With the working directory gone, [Path.cwd()] fails before the
    [try]: nothing is made and nothing is printed. *)
Lemma create_project_no_cwd self name w :
  strip name ≠ [] → is_dir (fs w) (cwd w) = false →
  create_project self name w = (Raise (OSError_nofile ENOENT), w).
Proof. intros Hne Hc. rewrite create_project_unfold by done. by rewrite Hc. Qed.

Lemma project_root_of_add_stdout ls m w name :
  project_root_of (add_stdout ls (set_fs m w)) name = project_root_of w name.
Proof. done. Qed.

Lemma mkdir_each_app m before failing after m1 x :
  mkdir_each m before = (m1, None) →
  mkdir_fs m1 failing = inl x →
  mkdir_each m (before ++ failing :: after) = (m1, Some x).
Proof.
  revert m. induction before as [|q before IH]; intros m; simpl.
  - intros [= ->] ->. done.
  - destruct (mkdir_fs m q) as [x'|m2]; [done|]. apply IH.
Qed.

(** What the sequence of [mkdir] can raise. *)
Lemma mkdir_each_raises m ps m' x :
  mkdir_each m ps = (m', Some x) →
  x = embedded_null ∨ ∃ e p, x = OSError e p.
Proof.
  intros (before & p & after & _ & _ & Hf)%mkdir_each_failure.
  apply mkdir_fs_inl in Hf as [[_ ->]|[_ [e ->]]]; [by left|right; by eauto].
Qed.

(** A run in which no [mkdir] fails, from a working directory that is
    there, returns the root. *)
Lemma create_project_succeeds self name w :
  strip name ≠ [] →
  is_dir (fs w) (cwd w) = true →
  (mkdir_each (fs w)
     (project_root_of w name
      :: structure_targets (project_root_of w name) (structure self))).2 = None →
  ∃ w', create_project self name w = (Ok (project_root_of w name), w').
Proof.
  intros Hne Hcwd Hseq. rewrite create_project_unfold by done. rewrite Hcwd.
  destruct (mkdir_each (fs w) _) as [m' r]. simpl in Hseq. subst r. by eexists.
Qed.

(** The timestamp has the shape [YYYYMMDD_HHMMSS]: fifteen characters,
    an underscore in the ninth place and decimal digits elsewhere. *)
Lemma strftime_shape t :
  length (strftime t) = 15%nat
  ∧ strftime t !! 8%nat = Some 95
  ∧ ∀ i c, i ≠ 8%nat → strftime t !! i = Some c → 48 ≤ c ≤ 57.
Proof.
  split_and!; [done|done|].
  assert (Hd : ∀ n, 48 ≤ digit n ≤ 57).
  { intros n. unfold digit. assert (H : n mod 10 < 10) by by apply N.mod_lt.
    revert H. generalize (n mod 10). intros; lia. }
  intros i c Hi Hc. unfold strftime, pad4, pad2 in Hc. simpl in Hc.
  do 15 (destruct i as [|i]; [first [done|injection Hc as <-; apply Hd]|]).
  done.
Qed.

(** C7, as the code has it: a project name that is empty once stripped
    makes [create_project] raise [ValueError] with the message of the
    check at once: no directory is made, nothing is printed, the world
    is unchanged; [main] reports it as an input error. That error is
    raised in no other case. Another [ValueError] remains possible for a
    name that is not empty once stripped: when the root path holds a NUL
    character, [mkdir] raises it, the handler of [OSError] lets it
    through, nothing is made, and [main] reports an input error too. *)
Theorem create_project_input_error self name w :
  (strip name = [] →
     create_project self name w
     = (Raise (ValueError (py "Project name cannot be empty")), w)
     ∧ ∀ folders,
         main name folders w
         = (Ok tt, add_stdout [py "Input error: Project name cannot be empty"] w))
  ∧ (strip name ≠ [] →
     (create_project self name w).1
     ≠ Raise (ValueError (py "Project name cannot be empty")))
  ∧ (strip name ≠ [] →
     is_dir (fs w) (cwd w) = true →
     has_nul (project_root_of w name) = true →
     create_project self name w = (Raise embedded_null, w)
     ∧ ∀ folders,
         main name folders w
         = (Ok tt, add_stdout [py "Input error: embedded null byte"] w)).
Proof.
  split; [|split].
  - intros He. split; [by apply create_project_empty|].
    intros folders. unfold main. by rewrite create_project_empty.
  - intros Hne. rewrite create_project_unfold by done.
    destruct (is_dir (fs w) (cwd w)); [|done].
    destruct (mkdir_each (fs w) _) as [m' [x|]] eqn:Hseq; [|done].
    apply mkdir_each_raises in Hseq as [->|(e & p & ->)]; simpl; [|done].
    intros [= H].
  - intros Hne Hcwd Hnul.
    assert (Hcp : ∀ self', create_project self' name w = (Raise embedded_null, w)).
    { intros self'. rewrite create_project_unfold by done. rewrite Hcwd.
      simpl. unfold mkdir_fs. rewrite Hnul. simpl. by rewrite set_fs_id. }
    split; [apply Hcp|]. intros folders. unfold main. by rewrite Hcp.
Qed.

Lemma create_project_input_error_witness :
  (strip (py "  ") = []
   ∧ create_project (init None) (py "  ") example_world
     = (Raise (ValueError (py "Project name cannot be empty")), example_world))
  ∧ (strip (py "proj") ≠ []
     ∧ (create_project (init None) (py "proj") example_world).1
       ≠ Raise (ValueError (py "Project name cannot be empty")))
  ∧ (strip [97; 0] ≠ []
     ∧ is_dir (fs example_world) (cwd example_world) = true
     ∧ has_nul (project_root_of example_world [97; 0]) = true
     ∧ create_project (init None) [97; 0] example_world
       = (Raise embedded_null, example_world)).
Proof.
  assert (H1 : strip (py "  ") = []) by reflexivity.
  assert (H2 : strip (py "proj") ≠ []) by discriminate.
  assert (H3 : strip [97; 0] ≠ []) by discriminate.
  assert (H4 : is_dir (fs example_world) (cwd example_world) = true)
    by (vm_compute; reflexivity).
  assert (H5 : has_nul (project_root_of example_world [97; 0]) = true)
    by (vm_compute; reflexivity).
  split; [|split].
  - split; [done|].
    exact (proj1 (proj1 (create_project_input_error (init None) (py "  ") example_world) H1)).
  - split; [done|].
    exact (proj1 (proj2 (create_project_input_error (init None) (py "proj") example_world)) H2).
  - split_and!; [done|done|done|].
    exact (proj1 (proj2 (proj2 (create_project_input_error (init None) [97; 0]
                                  example_world)) H3 H4 H5)).
Defined.

(** C7 as stated fails: the name made of the letter [a] and a NUL
    character is not empty once stripped, and [create_project] raises a
    [ValueError], which [main] prints as an input error. *)
Lemma create_project_input_error_counterexample :
  strip [97; 0] ≠ []
  ∧ (create_project (init None) [97; 0] example_world).1
    = Raise (ValueError (py "embedded null byte"))
  ∧ stdout (main [97; 0] None example_world).2
    = [py "Input error: embedded null byte"].
Proof. split_and!; [discriminate|vm_compute; reflexivity|vm_compute; reflexivity]. Qed.

(** C1, as the code has it: the root directory of [create_project] is
    the working directory joined with the project name as it was given
    (not stripped), an underscore and the timestamp, which has the shape
    [YYYYMMDD_HHMMSS]. Whenever the call returns, it returns that path,
    and that path is a directory. *)
Theorem create_project_root self name w :
  strip name ≠ [] →
  let timestamp := strftime (now w) in
  let root := path_join (cwd w) (name ++ py "_" ++ timestamp) in
  (∀ p w', create_project self name w = (Ok p, w') →
           p = root ∧ is_dir (fs w') root = true)
  ∧ (length timestamp = 15%nat
     ∧ timestamp !! 8%nat = Some 95
     ∧ ∀ i c, i ≠ 8%nat → timestamp !! i = Some c → 48 ≤ c ≤ 57).
Proof.
  intros Hne timestamp root. subst timestamp.
  fold (project_root_of w name) in root.
  pose proof (create_project_unfold self name w Hne) as Hcp. fold root in Hcp.
  split; [|apply strftime_shape].
  intros p w' Hok. rewrite Hok in Hcp.
  destruct (is_dir (fs w) (cwd w)); [|done].
  destruct (mkdir_each (fs w) (root :: structure_targets root (structure self)))
    as [m1 [x|]] eqn:Hseq; [done|].
  injection Hcp as -> ->. split; [done|]. cbn [fs add_stdout set_fs].
  apply mkdir_each_all_dirs in Hseq. by apply Forall_inv in Hseq.
Qed.

Lemma create_project_root_witness :
  strip (py " a") ≠ []
  ∧ ∃ w', create_project (init None) (py " a") example_world
          = (Ok [py "home"; py " a_20240307_090542"], w')
          ∧ is_dir (fs w') [py "home"; py " a_20240307_090542"] = true.
Proof.
  assert (H : strip (py " a") ≠ []) by discriminate.
  split; [exact H|].
  destruct (create_project_succeeds (init None) (py " a") example_world)
    as [w' E]; [exact H|vm_compute; reflexivity|vm_compute; reflexivity|].
  exists w'. split; [exact E|].
  exact (proj2 (proj1 (create_project_root (init None) (py " a") example_world H)
                  _ w' E)).
Defined.

(** C1 as stated fails. With a name that starts with a space the root
    keeps the space, so it is not the path built from the stripped name;
    and when a regular file stands where the root goes, no directory is
    made and nothing is returned. *)
Lemma create_project_root_counterexample :
  (strip (py " a") ≠ []
   ∧ (create_project (init None) (py " a") example_world).1
     = Ok [py "home"; py " a_20240307_090542"]
   ∧ [py "home"; py " a_20240307_090542"]
     ≠ path_join (cwd example_world)
         (strip (py " a") ++ py "_" ++ strftime (now example_world)))
  ∧ (strip (py "a") ≠ []
     ∧ (create_project (init None) (py "a") occupied_world).1
       = Raise (OSError EEXIST [py "home"; py "a_20240307_090542"])
     ∧ is_dir (fs (create_project (init None) (py "a") occupied_world).2)
         [py "home"; py "a_20240307_090542"] = false).
Proof.
  split; split_and!; try discriminate; vm_compute; reflexivity.
Qed.

(** C8: creation is idempotent. [mkdir] on a directory that exists
    succeeds and changes nothing; when the working directory and every
    directory of the run exist already, [create_project] succeeds and
    leaves the file system as it is; and after a call that succeeded, a
    second call at the same time succeeds, returns the same root, and
    leaves the file system as the first call left it. *)
Theorem create_project_idempotent self name :
  (∀ q w, is_dir (fs w) q = true → mkdir q w = (Ok tt, w))
  ∧ (∀ w, strip name ≠ [] →
       Forall (λ q, is_dir (fs w) q = true)
         (cwd w
          :: project_root_of w name
          :: structure_targets (project_root_of w name) (structure self)) →
       ∃ w', create_project self name w = (Ok (project_root_of w name), w')
             ∧ fs w' = fs w)
  ∧ (∀ w p w', create_project self name w = (Ok p, w') →
       ∃ w'', create_project self name w' = (Ok p, w'') ∧ fs w'' = fs w').
Proof.
  split_and!.
  - intros q w Hd. unfold mkdir. rewrite (is_dir_mkdir_fs _ _ Hd).
    by rewrite set_fs_id.
  - intros w Hne Hall. apply Forall_cons in Hall as [Hcwd Hall].
    rewrite create_project_unfold by done. rewrite Hcwd.
    rewrite (mkdir_each_noop _ _ Hall). eexists. split; [done|]. done.
  - intros w p w' Hok.
    destruct (decide (strip name = [])) as [He|Hne].
    { by rewrite create_project_empty in Hok. }
    rewrite create_project_unfold in Hok by done.
    destruct (is_dir (fs w) (cwd w)) eqn:Hcwd; [|done].
    destruct (mkdir_each (fs w) _) as [m1 [x|]] eqn:Hseq; [done|].
    injection Hok as <- <-.
    rewrite create_project_unfold by done.
    rewrite project_root_of_add_stdout. cbn [fs cwd add_stdout set_fs].
    rewrite (is_dir_mono _ _ _ (mkdir_each_subseteq _ _ _ _ Hseq) Hcwd).
    rewrite (mkdir_each_noop m1); [|by eapply mkdir_each_all_dirs].
    eexists. split; [done|]. done.
Qed.

Lemma create_project_idempotent_witness :
  ∃ p w1 w2,
    create_project (init None) (py "proj") example_world = (Ok p, w1)
    ∧ create_project (init None) (py "proj") w1 = (Ok p, w2)
    ∧ fs w2 = fs w1.
Proof.
  destruct (create_project_succeeds (init None) (py "proj") example_world)
    as [w1 E]; [discriminate|vm_compute; reflexivity|vm_compute; reflexivity|].
  destruct (proj2 (proj2 (create_project_idempotent (init None) (py "proj")))
              example_world _ _ E) as (w2 & E2 & Hfs).
  eexists _, w1, w2. split; [exact E|]. split; [exact E2|exact Hfs].
Defined.

(** C9, as the code has it: when a [mkdir] of the run fails with an
    [OSError], the directories before it have been made and remain, the
    ones after it are not tried, the handler prints the error, and the
    same error reaches the caller; the file system is the one in which
    the failing [mkdir] was called. [Path.cwd()] is called before the
    [try]: when the working directory is gone its [OSError] reaches the
    caller with nothing made and nothing printed by [create_project].
    In both cases [main] reports a file system error. *)
Theorem create_project_os_error self name w :
  strip name ≠ [] →
  (is_dir (fs w) (cwd w) = true →
   ∀ before failing after m1 e,
     project_root_of w name
     :: structure_targets (project_root_of w name) (structure self)
     = before ++ failing :: after →
     mkdir_each (fs w) before = (m1, None) →
     mkdir_fs m1 failing = inl (OSError e failing) →
     create_project self name w
     = (Raise (OSError e failing), add_stdout [error_line e failing] (set_fs m1 w))
     ∧ Forall (λ q, is_dir m1 q = true) before
     ∧ fs w ⊆ m1
     ∧ (∀ folders, creator_of folders = self →
          main name folders w
          = (Ok tt,
             add_stdout
               [error_line e failing;
                py "File system error: " ++ exn_str (OSError e failing)]
               (set_fs m1 w))))
  ∧ (is_dir (fs w) (cwd w) = false →
     create_project self name w = (Raise (OSError_nofile ENOENT), w)
     ∧ ∀ folders,
         main name folders w
         = (Ok tt,
            add_stdout [py "File system error: [Errno 2] No such file or directory"] w)).
Proof.
  intros Hne. split.
  - intros Hcwd before failing after m1 e Htargets Hbefore Hfail.
    assert (Hcp : create_project self name w
                  = (Raise (OSError e failing),
                     add_stdout [error_line e failing] (set_fs m1 w))).
    { rewrite create_project_unfold by done. rewrite Hcwd, Htargets.
      by rewrite (mkdir_each_app _ _ _ after _ _ Hbefore Hfail). }
    split_and!; [done|by eapply mkdir_each_all_dirs|by eapply mkdir_each_subseteq|].
    intros folders <-. unfold main. rewrite Hcp. unfold print.
    by rewrite add_stdout_add_stdout.
  - intros Hcwd. split; [by apply create_project_no_cwd|].
    intros folders. unfold main. by rewrite create_project_no_cwd.
Qed.

(** Conversely, an [OSError] with a file name that [create_project]
    raises always comes from such a failing [mkdir]. *)
Lemma create_project_os_error_inv self name w e p w' :
  create_project self name w = (Raise (OSError e p), w') →
  ∃ before after,
    project_root_of w name
    :: structure_targets (project_root_of w name) (structure self)
    = before ++ p :: after
    ∧ mkdir_each (fs w) before = (fs w', None)
    ∧ mkdir_fs (fs w') p = inl (OSError e p)
    ∧ stdout w' = stdout w ++ [error_line e p].
Proof.
  intros Hcp. destruct (decide (strip name = [])) as [He|Hne].
  { by rewrite create_project_empty in Hcp. }
  rewrite create_project_unfold in Hcp by done.
  destruct (is_dir (fs w) (cwd w)); [|done].
  destruct (mkdir_each (fs w) _) as [m1 [x|]] eqn:Hseq; [|done].
  injection Hcp as -> <-.
  apply mkdir_each_failure in Hseq as (before & q & after & Ht & Hb & Hf).
  pose proof (mkdir_fs_inl _ _ _ Hf) as [[_ ?]|[_ [e' [= <- <-]]]]; [done|].
  by exists before, after.
Qed.

Lemma create_project_os_error_witness :
  let self := {| structure := broken_structure |} in
  let root := [py "home"; py "proj_20240307_090542"] in
  let before := [root; root ++ [py "data"]; root ++ [py "data"; py "raw"]] in
  let failing := root ++ [py "x"; py "y"] in
  let m1 := (mkdir_each (fs example_world) before).1 in
  (create_project self (py "proj") example_world
   = (Raise (OSError ENOENT failing),
      add_stdout [error_line ENOENT failing] (set_fs m1 example_world))
   ∧ Forall (λ q, is_dir m1 q = true) before
   ∧ fs example_world ⊆ m1)
  ∧ (is_dir (fs gone_world) (cwd gone_world) = false
     ∧ create_project self (py "proj") gone_world
       = (Raise (OSError_nofile ENOENT), gone_world)).
Proof.
  intros self root before failing m1.
  assert (Hne : strip (py "proj") ≠ []) by discriminate.
  split.
  - refine ((λ H, conj (proj1 H) (conj (proj1 (proj2 H)) (proj1 (proj2 (proj2 H)))))
              (proj1 (create_project_os_error self (py "proj") example_world Hne) _
                 before failing [root ++ [py "logs"]] m1 ENOENT _ _ _)).
    + vm_compute. reflexivity.
    + vm_compute. reflexivity.
    + assert (H2 : (mkdir_each (fs example_world) before).2 = None).
      { vm_compute. reflexivity. }
      rewrite (surjective_pairing (mkdir_each (fs example_world) before)).
      rewrite H2. reflexivity.
    + subst m1. vm_compute. reflexivity.
  - assert (Hg : is_dir (fs gone_world) (cwd gone_world) = false).
    { vm_compute. reflexivity. }
    split; [exact Hg|].
    exact (proj1 (proj2 (create_project_os_error self (py "proj") gone_world Hne) Hg)).
Defined.

(** C9 as stated fails: in a world whose working directory is gone,
    [create_project] fails with an [OSError] and its handler prints
    nothing. *)
Lemma create_project_os_error_counterexample :
  strip (py "proj") ≠ []
  ∧ (create_project (init None) (py "proj") gone_world).1
    = Raise (OSError_nofile ENOENT)
  ∧ stdout (create_project (init None) (py "proj") gone_world).2 = [].
Proof. split_and!; [discriminate|vm_compute; reflexivity|vm_compute; reflexivity]. Qed.

(** ** The tree renderer *)

Lemma tree_lines_not_dir fuel m path prefix is_last :
  is_dir m path = false → tree_lines fuel m path prefix is_last = [].
Proof. intros Hd. destruct fuel as [|fuel]; simpl; [done|]. by rewrite Hd. Qed.

Lemma concat_fmap_filter {A B} (f : A → list B) (P : A → Prop)
    `{!∀ x, Decision (P x)} (l : list A) :
  (∀ x, ¬ P x → f x = []) →
  concat (f <$> l) = concat (f <$> filter P l).
Proof.
  intros Hf. induction l as [|x l IH]; [done|].
  rewrite filter_cons. destruct (decide (P x)) as [Hx|Hx]; rewrite !fmap_cons.
  - change (f x ++ concat (f <$> l) = f x ++ concat (f <$> filter P l)).
    by f_equal.
  - change (f x ++ concat (f <$> l) = concat (f <$> filter P l)).
    by rewrite (Hf x Hx).
Qed.

(** On a directory that holds the empty directory [a] and the file
    [b.txt], [_print_directory_tree] lists [a/] and then [b.txt], the
    file as the last entry. *)
Lemma print_directory_tree_lists_file :
  tree_lines (depth_bound (fs tree_world)) (fs tree_world) [py "root"] [] true
  = [ connector_last ++ py "root/";
      prefix_blank ++ connector_mid ++ py "a/";
      prefix_blank ++ connector_last ++ py "b.txt" ].
Proof. vm_compute. reflexivity. Qed.

(** C2, on the code: for a project root that holds the empty directory
    [a] and the regular file [b.txt], [print_project_structure] prints
    the banner, the name of the root, the line of [a/] with the
    connector of an entry that is not the last one, and the closing
    rule. No line is printed for [b.txt]. *)
Theorem print_project_structure_root_file :
  (print_project_structure [py "root"] tree_world).1 = Ok tt
  ∧ stdout (print_project_structure [py "root"] tree_world).2
    = [ banner_created; banner_structure; rule; py "root/";
        connector_mid ++ py "a/"; rule ].
Proof. split; vm_compute; reflexivity. Qed.

(** C10: on a path that is not a directory [_print_directory_tree]
    prints nothing, whatever the number of nested calls allowed, and
    leaves the world as it is. So [print_project_structure] prints the
    trees of the entries of the root that are directories only, while
    the flag of the last entry is computed from the position among all
    the entries. *)
Theorem print_directory_tree_not_dir :
  (∀ fuel m path prefix is_last,
     is_dir m path = false → tree_lines fuel m path prefix is_last = [])
  ∧ (∀ path prefix is_last w,
       is_dir (fs w) path = false →
       _print_directory_tree path prefix is_last w = (Ok tt, w))
  ∧ (∀ project_root w,
       is_dir (fs w) project_root = true →
       let items := sorted (entries (fs w) project_root) in
       let shown :=
         filter (λ x, is_dir (fs w) x.2 = true) (imap (λ i item, (i, item)) items) in
       print_project_structure project_root w
       = (Ok tt,
          add_stdout
            ([banner_created; banner_structure; rule; path_name project_root ++ [slash]]
             ++ concat ((λ x, tree_lines (depth_bound (fs w)) (fs w) x.2 []
                                (is_last_index x.1 items)) <$> shown)
             ++ [rule]) w)).
Proof.
  split_and!.
  - apply tree_lines_not_dir.
  - intros path prefix is_last w Hd. unfold _print_directory_tree, print_all.
    rewrite tree_lines_not_dir by done. by rewrite add_stdout_nil.
  - intros project_root w Hd items shown.
    rewrite print_project_structure_dir by done. unfold structure_lines.
    fold items. do 4 f_equal. subst shown.
    rewrite <- concat_fmap_filter.
    + by rewrite fmap_imap.
    + intros [i item] Hx. apply tree_lines_not_dir. simpl in *.
      by destruct (is_dir (fs w) item).
Qed.

Lemma print_directory_tree_not_dir_witness :
  is_dir (fs tree_world) [py "root"; py "b.txt"] = false
  ∧ _print_directory_tree [py "root"; py "b.txt"] [] true tree_world
    = (Ok tt, tree_world).
Proof.
  assert (H : is_dir (fs tree_world) [py "root"; py "b.txt"] = false).
  { vm_compute. reflexivity. }
  split; [exact H|].
  exact (proj1 (proj2 print_directory_tree_not_dir) _ [] true tree_world H).
Defined.

(** ** The bound on the nested calls of the renderer *)

Section fuel.
Implicit Types (m : fsmap) (p c : path).

Lemma mkdir_fs_wf m p m' : wf_fs m → mkdir_fs m p = inr m' → wf_fs m'.
Proof.
  intros Hwf [_ [H|[-> _]]]%mkdir_fs_inr; [|done].
  apply os_mkdir_inr in H as (par & n & _ & _ & Hpar & Hn & _ & ->).
  intros k [x Hk]. destruct (decide (k = par ++ [n])) as [->|Hne].
  - rewrite elem_of_app, list_elem_of_singleton. intros [Hin|Heq]; [|done].
    by apply (Hwf par).
  - rewrite lookup_insert_ne in Hk by done. by apply Hwf.
Qed.

Lemma lookup_depth_bound m c x : m !! c = Some x → (length c < depth_bound m)%nat.
Proof.
  intros Hc. unfold depth_bound. apply Nat.lt_succ_r, max_list_elem_of_le.
  apply list_elem_of_fmap. exists c. split; [done|].
  apply list_elem_of_fmap. exists (c, x). split; [done|].
  by apply elem_of_map_to_list.
Qed.

Lemma child_name_Some c k n : child_name c k = Some n ↔ k = c ++ [n].
Proof.
  unfold child_name. split.
  - destruct (last k) as [n'|] eqn:El; [|done].
    destruct (decide (removelast k = c)) as [<-|]; [|done].
    intros [= ->]. by apply last_Some_removelast.
  - intros ->. rewrite last_snoc, removelast_last. by rewrite decide_True.
Qed.

Lemma elem_of_entries m p c item :
  resolve m p = inr c →
  item ∈ entries m p ↔ ∃ n, item = p ++ [n] ∧ is_Some (m !! (c ++ [n])).
Proof.
  intros Hr. unfold entries. rewrite Hr, list_elem_of_omap. split.
  - intros (k & Hk & Hn). apply list_elem_of_fmap in Hk as ([k' x] & -> & Hk).
    apply elem_of_map_to_list in Hk. simpl in *.
    destruct (child_name c k') as [n|] eqn:En; [|done].
    injection Hn as <-. apply child_name_Some in En as ->. by exists n.
  - intros (n & -> & [x Hx]). exists (c ++ [n]). split.
    + apply list_elem_of_fmap. exists (c ++ [n], x). split; [done|].
      by apply elem_of_map_to_list.
    + by rewrite (proj2 (child_name_Some c (c ++ [n]) n) eq_refl).
Qed.

Lemma insert_sorted_Permutation x l : insert_sorted x l ≡ₚ x :: l.
Proof.
  induction l as [|y l IH]; simpl; [done|].
  destruct (path_ltb y x); [|done]. rewrite IH. apply Permutation_swap.
Qed.

(** [sorted] returns the elements of its argument. *)
Lemma sorted_Permutation l : sorted l ≡ₚ l.
Proof.
  unfold sorted. induction l as [|x l IH]; simpl; [done|].
  by rewrite insert_sorted_Permutation, IH.
Qed.

(** An entry of a directory resolves to one level below it. *)
Lemma resolve_entry m p c item :
  wf_fs m → resolve m p = inr c → is_dir m p = true →
  item ∈ sorted (entries m p) →
  ∃ n, resolve m item = inr (c ++ [n]).
Proof.
  intros Hwf Hr Hd Hin. rewrite sorted_Permutation in Hin.
  apply (elem_of_entries m p c item Hr) in Hin as (n & -> & Hsome).
  exists n. unfold resolve in *. rewrite resolve_from_app, Hr. simpl.
  unfold is_dir, resolve in Hd. destruct (has_nul p); [done|]. rewrite Hr in Hd.
  destruct (m !! c) as [[w| |]|]; try done.
  rewrite decide_False; [done|]. intros ->.
  apply (Hwf _ Hsome). apply elem_of_app. right. by apply list_elem_of_singleton.
Qed.

(** One more nested call changes nothing once the bound is reached. *)
Lemma tree_lines_S m fuel p prefix is_last :
  wf_fs m →
  (∀ c, resolve m p = inr c → (depth_bound m ≤ fuel + length c)%nat) →
  tree_lines (S fuel) m p prefix is_last = tree_lines fuel m p prefix is_last.
Proof.
  intros Hwf. revert p prefix is_last.
  induction fuel as [|fuel IH]; intros p prefix is_last Hb.
  - simpl. destruct (is_dir m p) eqn:Hd; [|done]. exfalso.
    unfold is_dir in Hd. destruct (has_nul p); [done|].
    destruct (resolve m p) as [e|c] eqn:Hr; [done|].
    destruct (m !! c) as [x|] eqn:Hc; [|done].
    apply lookup_depth_bound in Hc. specialize (Hb c eq_refl). lia.
  - change (tree_lines (S (S fuel)) m p prefix is_last)
      with (if is_dir m p then
              let connector := if is_last then connector_last else connector_mid in
              let items := sorted (entries m p) in
              let dirs := filter (λ item, is_dir m item = true) items in
              let files := filter (λ item, is_file m item = true) items in
              [prefix ++ connector ++ path_name p ++ [slash]]
              ++ concat (imap (λ i subdir,
                   tree_lines (S fuel) m subdir
                     (prefix ++ (if is_last then prefix_blank else prefix_bar))
                     (is_last_index i dirs && bool_decide (length files = 0%nat))) dirs)
              ++ imap (λ i file,
                   (prefix ++ (if is_last then prefix_blank else prefix_bar))
                   ++ (if is_last_index i files then connector_last else connector_mid)
                   ++ path_name file) files
            else []).
    change (tree_lines (S fuel) m p prefix is_last)
      with (if is_dir m p then
              let connector := if is_last then connector_last else connector_mid in
              let items := sorted (entries m p) in
              let dirs := filter (λ item, is_dir m item = true) items in
              let files := filter (λ item, is_file m item = true) items in
              [prefix ++ connector ++ path_name p ++ [slash]]
              ++ concat (imap (λ i subdir,
                   tree_lines fuel m subdir
                     (prefix ++ (if is_last then prefix_blank else prefix_bar))
                     (is_last_index i dirs && bool_decide (length files = 0%nat))) dirs)
              ++ imap (λ i file,
                   (prefix ++ (if is_last then prefix_blank else prefix_bar))
                   ++ (if is_last_index i files then connector_last else connector_mid)
                   ++ path_name file) files
            else []).
    destruct (is_dir m p) eqn:Hd; [|done]. cbv zeta.
    do 3 f_equal. apply imap_ext. intros i subdir Hi. apply IH.
    intros c' Hc'.
    apply list_elem_of_lookup_2, list_elem_of_filter in Hi as [_ Hin].
    assert (∃ c, resolve m p = inr c) as [c Hr].
    { unfold is_dir in Hd. destruct (has_nul p); [done|].
      destruct (resolve m p) as [e|c]; [done|]. by exists c. }
    destruct (resolve_entry m p c subdir Hwf Hr Hd Hin) as [n Hn].
    rewrite Hn in Hc'. injection Hc' as <-. specialize (Hb c Hr).
    rewrite length_app. simpl. lia.
Qed.

(** Any number of nested calls from the bound on gives the lines that
    the bound gives: the renderer of the model is not cut short. *)
Lemma tree_lines_enough m fuel p prefix is_last :
  wf_fs m → (depth_bound m ≤ fuel)%nat →
  tree_lines fuel m p prefix is_last
  = tree_lines (depth_bound m) m p prefix is_last.
Proof.
  intros Hwf Hle. induction Hle as [|fuel Hle IH]; [done|].
  rewrite tree_lines_S; [done|done|]. intros c _. lia.
Qed.
End fuel.

(** * Further properties of the code *)

(** ** More on dicts and on the parser *)

Lemma dict_keys_set_in {V} (d : dict V) k v :
  k ∈ dict_keys d → dict_keys (dict_set k v d) = dict_keys d.
Proof.
  unfold dict_keys. induction d as [|[k0 v0] d IH]; simpl.
  - by intros ?%elem_of_nil.
  - destruct (decide (k = k0)) as [->|Hne]; simpl; [done|].
    rewrite elem_of_cons. intros [?|Hin]; [done|]. f_equal. by apply IH.
Qed.

Lemma dict_set_fresh {V} (d : dict V) k v :
  k ∉ dict_keys d → dict_set k v d = d ++ [(k, v)].
Proof.
  unfold dict_keys. induction d as [|[k0 v0] d IH]; simpl; [done|].
  rewrite not_elem_of_cons. intros [Hne Hnin].
  rewrite decide_False by done. by rewrite IH.
Qed.

Lemma dict_get_None {V} (d : dict V) k :
  dict_get d k = None ↔ k ∉ dict_keys d.
Proof.
  unfold dict_keys. induction d as [|[k0 v0] d IH]; simpl.
  - split; [intros _; apply not_elem_of_nil|done].
  - rewrite not_elem_of_cons. destruct (decide (k = k0)) as [->|Hne].
    + split; [done|]. by intros [? _].
    + rewrite IH. tauto.
Qed.

Lemma elem_of_first_occurrences l x : x ∈ first_occurrences l ↔ x ∈ l.
Proof.
  unfold first_occurrences.
  by rewrite elem_of_reverse, elem_of_remove_dups, elem_of_reverse.
Qed.

Lemma first_occurrences_snoc l x :
  first_occurrences (l ++ [x])
  = if decide (x ∈ l) then first_occurrences l else first_occurrences l ++ [x].
Proof.
  unfold first_occurrences. rewrite reverse_snoc. simpl.
  destruct (decide_rel elem_of x (reverse l)) as [H1|H1];
    destruct (decide (x ∈ l)) as [H2|H2];
    rewrite elem_of_reverse in H1; try done.
  by rewrite reverse_cons.
Qed.

Lemma parse_value_origin specs k v :
  dict_get (parse_folders_with_colon specs) k = Some v →
  ∃ tok, tok ∈ specs ∧ k = folder_name_of tok ∧ v = sub_folders_for tok.
Proof.
  induction specs as [|tok specs IH] using rev_ind; [done|].
  rewrite parse_snoc. destruct (decide (folder_name_of tok = k)) as [<-|Hne].
  - rewrite dict_get_set_eq. intros [= <-]. exists tok. split; [|done].
    apply elem_of_app. right. by apply list_elem_of_singleton.
  - rewrite dict_get_set_ne by done. intros (t & Ht & -> & ->)%IH.
    exists t. split; [|done]. apply elem_of_app. by left.
Qed.

(** X1: the keys of the mapping that the parser returns stand in the
    order in which the folder names first occur among the tokens: a
    later token with a name already seen overwrites the value in place. *)
Theorem parse_keys_order specs :
  dict_keys (parse_folders_with_colon specs)
  = first_occurrences (folder_name_of <$> specs).
Proof.
  induction specs as [|tok specs IH] using rev_ind; [done|].
  rewrite parse_snoc, fmap_app. simpl. rewrite first_occurrences_snoc.
  destruct (decide (folder_name_of tok ∈ folder_name_of <$> specs)) as [Hin|Hnin].
  - rewrite dict_keys_set_in; [done|].
    rewrite IH. by apply elem_of_first_occurrences.
  - rewrite dict_set_fresh.
    + unfold dict_keys in *. by rewrite fmap_app, IH.
    + by rewrite IH, elem_of_first_occurrences.
Qed.

(** X2: a name has no entry in the returned mapping exactly when it is
    the folder name of no token. *)
Theorem parse_missing_key specs k :
  dict_get (parse_folders_with_colon specs) k = None
  ↔ ∀ tok, tok ∈ specs → folder_name_of tok ≠ k.
Proof.
  rewrite dict_get_None, elem_of_parse_keys. split.
  - intros Hn tok Htok Heq. apply Hn. by exists tok.
  - intros Hall (tok & Htok & ->). by apply (Hall tok).
Qed.

(** X3: every subfolder name in the returned mapping is non-empty, has
    no comma, and neither starts nor ends with whitespace. *)
Theorem parse_sub_folders_clean specs k subs s :
  dict_get (parse_folders_with_colon specs) k = Some subs →
  s ∈ subs →
  s ≠ [] ∧ (comma ∉ s)
  ∧ (∀ c, head s = Some c → isspace c = false)
  ∧ (∀ c, last s = Some c → isspace c = false).
Proof.
  intros (tok & _ & _ & ->)%parse_value_origin Hs.
  unfold sub_folders_for in Hs. case_bool_decide; [|by apply elem_of_nil in Hs].
  unfold sub_folders_of in Hs.
  apply list_elem_of_fmap in Hs as (piece & -> & Hpiece).
  apply list_elem_of_filter in Hpiece as [Hne Hpiece].
  destruct (strip_spec piece) as (l & r & Hp & _ & _ & Hhead & Hlast).
  split_and!; [done| |done|done].
  pose proof (split_no_sep comma (split_first colon tok).2) as Hall.
  rewrite Forall_forall in Hall. specialize (Hall piece Hpiece).
  intros Hin. apply Hall. rewrite Hp, !elem_of_app. tauto.
Qed.

Lemma parse_sub_folders_clean_witness :
  dict_get (parse_folders_with_colon [py "data: raw , ,x y "]) (py "data")
  = Some [py "raw"; py "x y"]
  ∧ py "x y" ≠ [] ∧ (comma ∉ py "x y")
  ∧ (∀ c, head (py "x y") = Some c → isspace c = false)
  ∧ (∀ c, last (py "x y") = Some c → isspace c = false).
Proof.
  assert (H : dict_get (parse_folders_with_colon [py "data: raw , ,x y "]) (py "data")
              = Some [py "raw"; py "x y"]) by (vm_compute; reflexivity).
  split; [exact H|].
  apply (parse_sub_folders_clean _ _ _ _ H).
  apply elem_of_cons. right. apply elem_of_cons. by left.
Defined.

(** X4: parsing a list of tokens followed by another: a name that the
    second list defines has the value that the second list alone gives
    it, and any other name keeps the value from the first list. *)
Theorem parse_app specs1 specs2 k :
  dict_get (parse_folders_with_colon (specs1 ++ specs2)) k
  = match dict_get (parse_folders_with_colon specs2) k with
    | Some v => Some v
    | None => dict_get (parse_folders_with_colon specs1) k
    end.
Proof.
  induction specs2 as [|tok specs2 IH] using rev_ind.
  - by rewrite app_nil_r.
  - rewrite app_assoc, !parse_snoc.
    destruct (decide (folder_name_of tok = k)) as [<-|Hne].
    + by rewrite !dict_get_set_eq.
    + by rewrite !dict_get_set_ne.
Qed.

(** X5: every mapping with distinct keys, whose keys have no colon and
    whose subfolder names are non-empty, comma-free and stripped, is
    what the parser returns on its entries written in the colon syntax,
    in the same order. *)
Theorem parse_format_spec (d : dict (list str)) :
  NoDup (dict_keys d) →
  Forall (λ entry, (colon ∉ entry.1)
                   ∧ Forall (λ s, s ≠ [] ∧ (comma ∉ s) ∧ strip s = s) entry.2) d →
  parse_folders_with_colon (format_spec <$> d) = d.
Proof.
  intros Hnd Hall. unfold parse_folders_with_colon.
  assert (Hgen : ∀ acc, NoDup (dict_keys (acc ++ d)) →
                        foldl parse_spec acc (format_spec <$> d) = acc ++ d).
  2: { apply (Hgen []). exact Hnd. }
  clear Hnd. induction Hall as [|[k subs] d [Hk Hsubs] _ IH]; intros acc Hnd.
  - by rewrite app_nil_r.
  - rewrite fmap_cons.
    change (foldl parse_spec (parse_spec acc (format_spec (k, subs)))
              (format_spec <$> d) = acc ++ (k, subs) :: d).
    simpl in Hk, Hsubs.
    assert (Hstep : parse_spec acc (format_spec (k, subs)) = acc ++ [(k, subs)]).
    { unfold parse_spec, format_spec. simpl.
      rewrite bool_decide_eq_true_2 by (rewrite elem_of_app, elem_of_cons; tauto).
      rewrite split_first_app by done.
      rewrite sub_folders_of_join.
      2: { eapply Forall_impl; [exact Hsubs|]. by intros s (_ & ? & _). }
      assert (Hid : strip <$> filter (λ p, strip p ≠ []) subs = subs).
      { clear -Hsubs. induction Hsubs as [|s subs (Hne & _ & Hs) _ IH]; [done|].
        rewrite filter_cons_True by by rewrite Hs.
        rewrite fmap_cons. by rewrite Hs, IH. }
      rewrite Hid. apply dict_set_fresh.
      unfold dict_keys in *. rewrite fmap_app in Hnd.
      apply NoDup_app in Hnd as (_ & Hdisj & _). intros Hin.
      apply (Hdisj k Hin). simpl. apply elem_of_cons. by left. }
    rewrite Hstep. rewrite IH.
    + by rewrite <- app_assoc.
    + by rewrite <- app_assoc.
Qed.

Lemma parse_format_spec_witness :
  (NoDup (dict_keys default_structure)
   ∧ Forall (λ entry, (colon ∉ entry.1)
                      ∧ Forall (λ s, s ≠ [] ∧ (comma ∉ s) ∧ strip s = s) entry.2)
       default_structure)
  ∧ parse_folders_with_colon (format_spec <$> default_structure)
    = default_structure.
Proof.
  assert (H1 : NoDup (dict_keys default_structure)) by by_decide.
  assert (H2 : Forall (λ entry, (colon ∉ entry.1)
                   ∧ Forall (λ s, s ≠ [] ∧ (comma ∉ s) ∧ strip s = s) entry.2)
                 default_structure) by by_decide.
  split; [by split|]. exact (parse_format_spec default_structure H1 H2).
Defined.

(** ** The constructor *)

Lemma init_list_snoc l folder :
  structure (init (Some (FoldersList (l ++ [folder]))))
  = dict_set folder [] (structure (init (Some (FoldersList l)))).
Proof. simpl. by rewrite foldl_app. Qed.

(** X6: built from a list of names, the creator has one entry per
    distinct name, in the order of the first occurrences, and each name
    of the list maps to the empty list of subfolders. *)
Theorem init_list_structure l :
  dict_keys (structure (init (Some (FoldersList l)))) = first_occurrences l
  ∧ ∀ k, dict_get (structure (init (Some (FoldersList l)))) k
         = if decide (k ∈ l) then Some [] else None.
Proof.
  induction l as [|folder l [IHk IHg]] using rev_ind.
  - split; [done|]. intros k. rewrite decide_False; [done|apply not_elem_of_nil].
  - rewrite init_list_snoc. split.
    + rewrite first_occurrences_snoc.
      destruct (decide (folder ∈ l)) as [Hin|Hnin].
      * rewrite dict_keys_set_in; [done|]. rewrite IHk.
        by apply elem_of_first_occurrences.
      * rewrite dict_set_fresh.
        -- unfold dict_keys in *. by rewrite fmap_app, IHk.
        -- by rewrite IHk, elem_of_first_occurrences.
    + intros k. destruct (decide (folder = k)) as [<-|Hne].
      * rewrite dict_get_set_eq. rewrite decide_True; [done|].
        apply elem_of_app. right. by apply list_elem_of_singleton.
      * rewrite dict_get_set_ne by done. rewrite IHg.
        destruct (decide (k ∈ l)) as [Hin|Hnin].
        -- rewrite decide_True; [done|]. apply elem_of_app. by left.
        -- rewrite decide_False; [done|].
           rewrite elem_of_app, list_elem_of_singleton. intros [?|?]; auto.
Qed.



(** ** The builder *)

Lemma elem_of_structure_targets base (st : dict (list str)) k subs :
  (k, subs) ∈ st →
  path_join base k ∈ structure_targets base st
  ∧ ∀ s, s ∈ subs →
         path_join (path_join base k) s ∈ structure_targets base st.
Proof.
  unfold structure_targets. induction st as [|[k0 subs0] st IH]; intros Hin.
  - by apply elem_of_nil in Hin.
  - rewrite fmap_cons.
    change (concat (?x :: ?l)) with (x ++ concat l).
    apply elem_of_cons in Hin as [[= -> ->]|Hin].
    + split.
      * apply elem_of_app. left. apply elem_of_cons. by left.
      * intros s Hs. apply elem_of_app. left. apply elem_of_cons. right.
        apply list_elem_of_fmap. by exists s.
    + destruct (IH Hin) as [H1 H2]. split.
      * apply elem_of_app. by right.
      * intros s Hs. apply elem_of_app. right. by apply H2.
Qed.

Lemma mkdir_each_new_entries m ps m' r :
  mkdir_each m ps = (m', r) →
  ∀ k n, m' !! k = Some n → m !! k = Some n ∨ (m !! k = None ∧ n = Dir true).
Proof.
  revert m. induction ps as [|p ps IH]; intros m; simpl.
  - intros [= <- _] k n Hk. by left.
  - destruct (mkdir_fs m p) as [e|m1] eqn:E.
    + intros [= <- _] k n Hk. by left.
    + intros Hseq k n Hk.
      destruct (IH _ Hseq k n Hk) as [H1|[H1 ->]].
      * apply mkdir_fs_inr in E as [_ [E|[-> _]]]; [|by left].
        apply os_mkdir_inr in E as (par & c & _ & _ & _ & _ & Hnone & ->).
        destruct (decide (par ++ [c] = k)) as [<-|Hne].
        -- rewrite lookup_insert_eq in H1. injection H1 as <-. by right.
        -- rewrite lookup_insert_ne in H1 by done. by left.
      * right. split; [|done].
        apply mkdir_fs_subseteq in E.
        destruct (m !! k) as [x|] eqn:Hx; [|done].
        by rewrite (lookup_weaken _ _ _ _ Hx E) in H1.
Qed.

(** X8: when [_create_directory_recursive] returns, every folder of the
    structure and every subfolder of it is a directory below the base
    path; what was in the file system before is still there; nothing
    was printed. *)
Theorem create_directory_recursive_layout base st w w' :
  _create_directory_recursive base st w = (Ok tt, w') →
  (∀ k subs, (k, subs) ∈ st →
     is_dir (fs w') (path_join base k) = true
     ∧ ∀ s, s ∈ subs → is_dir (fs w') (path_join (path_join base k) s) = true)
  ∧ fs w ⊆ fs w'
  ∧ stdout w' = stdout w.
Proof.
  rewrite create_directory_recursive_mkdir_each, for_each_mkdir.
  destruct (mkdir_each (fs w) (structure_targets base st)) as [m' [x|]] eqn:Hseq;
    [done|].
  intros [= <-]. cbn [fs stdout set_fs].
  pose proof (mkdir_each_all_dirs _ _ _ Hseq) as Hall.
  rewrite Forall_forall in Hall.
  split_and!; [|by eapply mkdir_each_subseteq|done].
  intros k subs Hin.
  destruct (elem_of_structure_targets base st k subs Hin) as [H1 H2].
  split; [by apply Hall|]. intros s Hs. by apply Hall, H2.
Qed.

Lemma create_directory_recursive_layout_witness :
  ∃ w',
    _create_directory_recursive [py "home"] [(py "data", [py "raw"])] example_world
    = (Ok tt, w')
    ∧ is_dir (fs w') [py "home"; py "data"; py "raw"] = true.
Proof.
  set (st := [(py "data", [py "raw"])]).
  set (m1 := (mkdir_each (fs example_world) (structure_targets [py "home"] st)).1).
  assert (E : _create_directory_recursive [py "home"] st example_world
              = (Ok tt, set_fs m1 example_world)).
  { rewrite create_directory_recursive_mkdir_each, for_each_mkdir.
    assert (H2 : (mkdir_each (fs example_world)
                    (structure_targets [py "home"] st)).2 = None).
    { vm_compute. reflexivity. }
    rewrite (surjective_pairing (mkdir_each (fs example_world)
                                   (structure_targets [py "home"] st))).
    rewrite H2. reflexivity. }
  exists (set_fs m1 example_world). split; [exact E|].
  destruct (create_directory_recursive_layout _ _ _ _ E) as [Hlay _].
  destruct (Hlay (py "data") [py "raw"]) as [_ Hsub].
  { apply elem_of_cons. by left. }
  apply (Hsub (py "raw")). apply elem_of_cons. by left.
Defined.

(** X9: when [create_project] returns a root, every folder of the
    structure and every subfolder of it is a directory below that root. *)
Theorem create_project_layout self name w root w' :
  create_project self name w = (Ok root, w') →
  ∀ k subs, (k, subs) ∈ structure self →
    is_dir (fs w') (path_join root k) = true
    ∧ ∀ s, s ∈ subs → is_dir (fs w') (path_join (path_join root k) s) = true.
Proof.
  intros Hcp. destruct (decide (strip name = [])) as [He|Hne].
  { by rewrite create_project_empty in Hcp. }
  rewrite create_project_unfold in Hcp by done.
  destruct (is_dir (fs w) (cwd w)); [|done].
  destruct (mkdir_each (fs w) _) as [m' [x|]] eqn:Hseq; [done|].
  injection Hcp as <- <-. cbn [fs add_stdout set_fs].
  pose proof (mkdir_each_all_dirs _ _ _ Hseq) as Hall.
  apply Forall_cons in Hall as [_ Hall]. rewrite Forall_forall in Hall.
  intros k subs Hin.
  destruct (elem_of_structure_targets (project_root_of w name) _ k subs Hin)
    as [H1 H2].
  split; [by apply Hall|]. intros s Hs. by apply Hall, H2.
Qed.

Lemma create_project_layout_witness :
  ∃ root w',
    create_project (init None) (py "proj") example_world = (Ok root, w')
    ∧ is_dir (fs w') (path_join (path_join root (py "data")) (py "processed")) = true.
Proof.
  set (root := project_root_of example_world (py "proj")).
  set (targets := root :: structure_targets root (structure (init None))).
  set (m1 := (mkdir_each (fs example_world) targets).1).
  assert (Hseq : mkdir_each (fs example_world) targets = (m1, None)).
  { assert (H2 : (mkdir_each (fs example_world) targets).2 = None).
    { vm_compute. reflexivity. }
    rewrite (surjective_pairing (mkdir_each (fs example_world) targets)).
    rewrite H2. reflexivity. }
  assert (E : create_project (init None) (py "proj") example_world
              = (Ok root, add_stdout (structure_lines m1 root) (set_fs m1 example_world))).
  { rewrite create_project_unfold by discriminate.
    replace (is_dir (fs example_world) (cwd example_world)) with true
      by (vm_compute; reflexivity).
    fold root targets. by rewrite Hseq. }
  exists root. eexists. split; [exact E|].
  destruct (create_project_layout _ _ _ _ _ E (py "data")
              [py "raw"; py "output"; py "processed"]) as [_ Hsub].
  { apply elem_of_cons. by left. }
  apply Hsub. apply elem_of_cons. right. apply elem_of_cons. right.
  apply elem_of_cons. by left.
Defined.

(** X10: whatever its outcome, [create_project] removes nothing and
    changes nothing that exists: every entry of the file system is still
    there with its kind, every new entry is a directory, the working
    directory and the clock are untouched, and what had been printed
    stays at the head of the output. *)
Theorem create_project_only_adds_directories self name w :
  let w' := (create_project self name w).2 in
  fs w ⊆ fs w'
  ∧ (∀ k n, fs w' !! k = Some n →
            fs w !! k = Some n ∨ (fs w !! k = None ∧ n = Dir true))
  ∧ cwd w' = cwd w ∧ now w' = now w
  ∧ stdout w `prefix_of` stdout w'.
Proof.
  destruct (decide (strip name = [])) as [He|Hne].
  - rewrite create_project_empty by done. simpl.
    split_and!; try done. intros k n Hk. by left.
  - rewrite create_project_unfold by done.
    destruct (is_dir (fs w) (cwd w)).
    + destruct (mkdir_each (fs w) _) as [m' r] eqn:Hseq.
      assert (Hsub : fs w ⊆ m') by by eapply mkdir_each_subseteq.
      pose proof (mkdir_each_new_entries _ _ _ _ Hseq) as Hnew.
      destruct r as [[msg|e p|e]|]; simpl;
        (split_and!; [done|done|done|done|]);
        first [by eexists|by exists []; rewrite app_nil_r].
    + simpl. split_and!; try done. intros k n Hk. by left.
Qed.

Lemma strftime_no_slash t : slash ∉ strftime t.
Proof.
  intros Hin. apply list_elem_of_lookup in Hin as [i Hi].
  destruct (strftime_shape t) as (_ & H8 & Hd).
  destruct (decide (i = 8%nat)) as [->|Hne].
  - rewrite H8 in Hi. discriminate Hi.
  - specialize (Hd i slash Hne Hi). unfold slash in Hd. lia.
Qed.

Lemma path_parts_single s :
  slash ∉ s → s ≠ [] → s ≠ dot → path_parts s = [s].
Proof.
  intros Hs Hne Hdot. unfold path_parts. rewrite split_no_sep_id by done.
  by rewrite filter_cons_True.
Qed.

(** X11: for a project name without slash, the root that
    [create_project] returns is an entry of the working directory, named
    by the project name, an underscore and the timestamp. *)
Theorem create_project_root_in_cwd self name w root w' :
  slash ∉ name →
  create_project self name w = (Ok root, w') →
  root = cwd w ++ [name ++ py "_" ++ strftime (now w)]
  ∧ path_name root = name ++ py "_" ++ strftime (now w).
Proof.
  intros Hslash Hcp. destruct (decide (strip name = [])) as [He|Hne].
  { by rewrite create_project_empty in Hcp. }
  rewrite create_project_unfold in Hcp by done.
  destruct (is_dir (fs w) (cwd w)); [|done].
  destruct (mkdir_each (fs w) _) as [m' [x|]]; [done|].
  injection Hcp as <- _. unfold project_root_of, path_join.
  set (full := name ++ py "_" ++ strftime (now w)).
  assert (Hfs : slash ∉ full).
  { subst full. rewrite !elem_of_app. intros [?|[Hu|?]]; [done| |].
    - apply list_elem_of_singleton in Hu. discriminate Hu.
    - by eapply strftime_no_slash. }
  assert (Hlen : (15 < length full)%nat).
  { subst full. rewrite !length_app.
    destruct (strftime_shape (now w)) as [-> _]. simpl. lia. }
  assert (Habs : is_absolute full = false).
  { destruct full as [|c full'] eqn:Ef; [done|]. simpl.
    apply N.eqb_neq. intros ->. apply Hfs. apply elem_of_cons. by left. }
  rewrite Habs. rewrite path_parts_single; [|done| |].
  - split; [done|]. unfold path_name. by rewrite last_snoc.
  - intros E. rewrite E in Hlen. simpl in Hlen. lia.
  - intros E. rewrite E in Hlen. simpl in Hlen. lia.
Qed.

Lemma create_project_root_in_cwd_witness :
  ∃ root w',
    (slash ∉ py "proj")
    ∧ create_project (init None) (py "proj") example_world = (Ok root, w')
    ∧ root = cwd example_world ++ [py "proj" ++ py "_" ++ strftime (now example_world)].
Proof.
  assert (Hs : slash ∉ py "proj") by by_decide.
  set (r0 := project_root_of example_world (py "proj")).
  set (targets := r0 :: structure_targets r0 (structure (init None))).
  set (m1 := (mkdir_each (fs example_world) targets).1).
  assert (Hseq : mkdir_each (fs example_world) targets = (m1, None)).
  { assert (H2 : (mkdir_each (fs example_world) targets).2 = None).
    { vm_compute. reflexivity. }
    rewrite (surjective_pairing (mkdir_each (fs example_world) targets)).
    rewrite H2. reflexivity. }
  assert (E : create_project (init None) (py "proj") example_world
              = (Ok r0, add_stdout (structure_lines m1 r0) (set_fs m1 example_world))).
  { rewrite create_project_unfold by discriminate.
    replace (is_dir (fs example_world) (cwd example_world)) with true
      by (vm_compute; reflexivity).
    fold r0 targets. by rewrite Hseq. }
  exists r0. eexists. split; [exact Hs|]. split; [exact E|].
  exact (proj1 (create_project_root_in_cwd _ _ _ _ _ Hs E)).
Defined.

(** ** Printing *)

(** X12: on a root that is not a directory [print_project_structure]
    prints the two banner lines, the rule and the name of the root, and
    then fails with the exception of [iterdir]: the [OSError] for no
    such file or for not a directory, or the [ValueError] of a path with
    a NUL character; the file system is untouched. *)
Theorem print_project_structure_not_dir root w :
  is_dir (fs w) root = false →
  ∃ x, (x = OSError ENOENT root ∨ x = OSError ENOTDIR root
        ∨ (has_nul root = true ∧ x = embedded_null))
       ∧ print_project_structure root w
         = (Raise x,
            add_stdout [banner_created; banner_structure; rule;
                        path_name root ++ [slash]] w).
Proof.
  intros Hd. unfold print_project_structure.
  unfold mbind, M_bind, print, iterdir. cbn [fs add_stdout].
  rewrite !add_stdout_add_stdout. simpl app.
  unfold is_dir in Hd. unfold resolve in *.
  destruct (has_nul root).
  { exists embedded_null. split; [by right; right|done]. }
  assert (Hres : ∀ acc e, resolve_from (fs w) acc root = inl e → e = ENOENT ∨ e = ENOTDIR).
  { generalize root. induction root0 as [|c rest IH]; intros acc e; simpl; [done|].
    destruct (fs w !! acc) as [[wr| |]|]; try (intros [= <-]; auto). apply IH. }
  destruct (resolve_from (fs w) [] root) as [e|c] eqn:Hr.
  - exists (OSError e root). split; [|done].
    destruct (Hres _ _ Hr) as [->| ->]; auto.
  - destruct (fs w !! c) as [[wr| |]|]; try done.
    + exists (OSError ENOTDIR root). split; [by right; left|done].
    + exists (OSError ENOTDIR root). split; [by right; left|done].
    + exists (OSError ENOENT root). split; [by left|done].
Qed.

Lemma print_project_structure_not_dir_witness :
  is_dir (fs tree_world) [py "root"; py "b.txt"] = false
  ∧ ∃ x, (x = OSError ENOENT [py "root"; py "b.txt"]
          ∨ x = OSError ENOTDIR [py "root"; py "b.txt"]
          ∨ (has_nul [py "root"; py "b.txt"] = true ∧ x = embedded_null))
         ∧ print_project_structure [py "root"; py "b.txt"] tree_world
           = (Raise x,
              add_stdout [banner_created; banner_structure; rule;
                          path_name [py "root"; py "b.txt"] ++ [slash]] tree_world).
Proof.
  assert (H : is_dir (fs tree_world) [py "root"; py "b.txt"] = false).
  { vm_compute. reflexivity. }
  split; [exact H|]. exact (print_project_structure_not_dir _ _ H).
Defined.

(** X13: every line that [_print_directory_tree] prints starts with the
    prefix it was given; below the first line, which shows the
    directory itself, every line starts with that prefix followed by the
    continuation of the level (blank for a last entry, a bar
    otherwise). *)
Theorem tree_lines_prefix fuel m path prefix is_last :
  Forall (λ line, prefix `prefix_of` line) (tree_lines fuel m path prefix is_last)
  ∧ Forall (λ line, (prefix ++ (if is_last then prefix_blank else prefix_bar))
                      `prefix_of` line)
      (tail (tree_lines fuel m path prefix is_last)).
Proof.
  revert path prefix is_last.
  induction fuel as [|fuel IH]; intros path prefix is_last; [by split|].
  simpl. destruct (is_dir m path); [|by split].
  set (new_prefix := prefix ++ (if is_last then prefix_blank else prefix_bar)).
  assert (Htail : Forall (λ line, new_prefix `prefix_of` line)
            (concat (imap (λ i subdir,
               tree_lines fuel m subdir new_prefix
                 (is_last_index i (filter (λ item, is_dir m item = true)
                                     (sorted (entries m path)))
                  && bool_decide (length (filter (λ item, is_file m item = true)
                                            (sorted (entries m path))) = 0%nat)))
               (filter (λ item, is_dir m item = true) (sorted (entries m path))))
             ++ imap (λ i file,
                  new_prefix
                  ++ (if is_last_index i (filter (λ item, is_file m item = true)
                                            (sorted (entries m path)))
                      then connector_last else connector_mid)
                  ++ path_name file)
                 (filter (λ item, is_file m item = true) (sorted (entries m path))))).
  { apply Forall_app. split.
    - apply Forall_concat. apply Forall_forall. intros ls Hls.
      apply list_elem_of_lookup in Hls as [i Hi].
      rewrite list_lookup_imap in Hi.
      destruct (_ !! i) as [subdir|]; [|done]. injection Hi as <-.
      apply (IH subdir new_prefix).
    - apply Forall_forall. intros line Hline.
      apply list_elem_of_lookup in Hline as [i Hi].
      rewrite list_lookup_imap in Hi.
      destruct (_ !! i) as [file|]; [|done]. injection Hi as <-.
      by eexists. }
  split; [|exact Htail].
  constructor.
  - by eexists.
  - eapply Forall_impl; [exact Htail|]. intros line [k ->].
    subst new_prefix. rewrite <- app_assoc. by eexists.
Qed.

(** ** The timestamp in the name of the root *)

Lemma split_app_last sep (a : str) :
  ∃ init lp, split sep a = init ++ [lp]
             ∧ ∀ b, sep ∉ b → split sep (a ++ b) = init ++ [lp ++ b].
Proof.
  induction a as [|c a (init & lp & Ha & Hab)].
  - exists [], []. split; [done|]. intros b Hb. by apply split_no_sep_id.
  - simpl. destruct (N.eqb_spec c sep) as [->|Hne].
    + exists ([] :: init), lp. split; [by rewrite Ha|].
      intros b Hb. by rewrite Hab.
    + rewrite Ha. destruct init as [|i init].
      * exists [], (c :: lp). split; [done|]. intros b Hb. by rewrite Hab.
      * exists ((c :: i) :: init), lp. split; [done|]. intros b Hb. by rewrite Hab.
Qed.

Lemma path_name_path_join base (name suffix : str) :
  slash ∉ suffix → (1 < length suffix)%nat →
  ∃ lp, last (split slash name) = Some lp
        ∧ path_name (path_join base (name ++ suffix)) = lp ++ suffix.
Proof.
  intros Hs Hlen. destruct (split_app_last slash name) as (init & lp & Ha & Hab).
  exists lp. split; [by rewrite Ha, last_snoc|].
  unfold path_name, path_join, path_parts. rewrite (Hab suffix Hs).
  rewrite filter_app, filter_cons_True, filter_nil.
  - destruct (is_absolute (name ++ suffix)); by rewrite ?app_assoc, last_snoc.
  - split.
    + intros E. apply (f_equal length) in E. rewrite length_app in E.
      simpl in E. lia.
    + intros E. apply (f_equal length) in E. rewrite length_app in E.
      simpl in E. lia.
Qed.

(** X15: the name of the root that [create_project] returns is the last
    slash-separated piece of the project name, an underscore and the
    timestamp. So two calls with the same project name whose timestamps
    differ never return the same root, wherever they run. *)
Theorem create_project_roots_differ self1 self2 name w1 w2 root1 root2 w1' w2' :
  create_project self1 name w1 = (Ok root1, w1') →
  create_project self2 name w2 = (Ok root2, w2') →
  (∃ lp, last (split slash name) = Some lp
         ∧ path_name root1 = lp ++ py "_" ++ strftime (now w1)
         ∧ path_name root2 = lp ++ py "_" ++ strftime (now w2))
  ∧ (strftime (now w1) ≠ strftime (now w2) → root1 ≠ root2).
Proof.
  intros H1 H2.
  assert (Hroot : ∀ self w root w',
            create_project self name w = (Ok root, w') →
            root = project_root_of w name).
  { intros self w root w' Hcp. destruct (decide (strip name = [])) as [He|Hne].
    { by rewrite create_project_empty in Hcp. }
    rewrite create_project_unfold in Hcp by done.
    destruct (is_dir (fs w) (cwd w)); [|done].
    destruct (mkdir_each (fs w) _) as [m' [x|]]; [done|].
    by injection Hcp as <- _. }
  apply Hroot in H1 as ->. apply Hroot in H2 as ->. unfold project_root_of.
  assert (Hsuf : ∀ t, slash ∉ py "_" ++ strftime t).
  { intros t. rewrite elem_of_app. intros [Hu|?]; [|by eapply strftime_no_slash].
    apply list_elem_of_singleton in Hu. discriminate Hu. }
  assert (Hlen : ∀ t, (1 < length (py "_" ++ strftime t))%nat).
  { intros t. rewrite length_app. destruct (strftime_shape t) as [-> _].
    simpl. lia. }
  destruct (path_name_path_join (cwd w1) name _ (Hsuf (now w1)) (Hlen (now w1)))
    as (lp & Hlp & Hn1).
  destruct (path_name_path_join (cwd w2) name _ (Hsuf (now w2)) (Hlen (now w2)))
    as (lp' & Hlp' & Hn2).
  rewrite Hlp in Hlp'. injection Hlp' as <-.
  split.
  - exists lp. by split_and!.
  - intros Hts Heq. apply Hts.
    assert (Hnames : lp ++ py "_" ++ strftime (now w1)
                     = lp ++ py "_" ++ strftime (now w2)).
    { rewrite <- Hn1, <- Hn2. by rewrite Heq. }
    apply app_inv_head in Hnames. by apply app_inv_head in Hnames.
Qed.

Lemma create_project_roots_differ_witness :
  ∃ root1 root2 w1' w2',
    create_project (init None) (py "proj") example_world = (Ok root1, w1')
    ∧ create_project (init None) (py "proj") later_world = (Ok root2, w2')
    ∧ strftime (now example_world) ≠ strftime (now later_world)
    ∧ root1 ≠ root2.
Proof.
  destruct (create_project_succeeds (init None) (py "proj") example_world)
    as [w1' E1]; [discriminate|vm_compute; reflexivity|vm_compute; reflexivity|].
  destruct (create_project_succeeds (init None) (py "proj") later_world)
    as [w2' E2]; [discriminate|vm_compute; reflexivity|vm_compute; reflexivity|].
  assert (Hts : strftime (now example_world) ≠ strftime (now later_world))
    by discriminate.
  eexists _, _, w1', w2'. split; [exact E1|]. split; [exact E2|].
  split; [exact Hts|].
  exact (proj2 (create_project_roots_differ _ _ _ _ _ _ _ _ _ E1 E2) Hts).
Defined.

Lemma digit_inj a b : a < 10 → b < 10 → digit a = digit b → a = b.
Proof.
  unfold digit. intros Ha Hb H.
  rewrite (N.mod_small a 10), (N.mod_small b 10) in H by done. lia.
Qed.

Lemma div10_step a b :
  a / 10 = b / 10 → digit a = digit b → a = b.
Proof.
  intros Hq Hd. unfold digit in Hd.
  assert (Hm : a mod 10 = b mod 10) by (revert Hd; generalize (a mod 10) (b mod 10); lia).
  rewrite (N.div_mod a 10), (N.div_mod b 10) by done. by rewrite Hq, Hm.
Qed.

Lemma pad2_inj a b : a < 100 → b < 100 → pad2 a = pad2 b → a = b.
Proof.
  intros Ha Hb [= H1 H0]. apply div10_step; [|done].
  apply digit_inj; [| |done]; by apply N.Div0.div_lt_upper_bound.
Qed.

Lemma pad4_inj a b : a < 10000 → b < 10000 → pad4 a = pad4 b → a = b.
Proof.
  intros Ha Hb [= H3 H2 H1 H0].
  assert (E100 : ∀ n, n / 100 = n / 10 / 10).
  { intros n. by rewrite N.Div0.div_div. }
  assert (E1000 : ∀ n, n / 1000 = n / 10 / 10 / 10).
  { intros n. by rewrite !N.Div0.div_div. }
  rewrite !E1000 in H3. rewrite !E100 in H2.
  do 3 (apply div10_step; [|done]).
  apply digit_inj; [| |done]; rewrite <- E1000;
    by apply N.Div0.div_lt_upper_bound.
Qed.

(** X16: the timestamp determines the second: two valid dates that
    differ give timestamps that differ. *)
Theorem strftime_inj t1 t2 :
  valid_datetime t1 → valid_datetime t2 →
  t1 ≠ t2 → strftime t1 ≠ strftime t2.
Proof.
  intros (Hy1 & Hm1 & Hd1 & Hh1 & Hi1 & Hs1) (Hy2 & Hm2 & Hd2 & Hh2 & Hi2 & Hs2).
  intros Hne H. apply Hne. clear Hne. unfold strftime in H.
  destruct t1 as [y1 mo1 d1 h1 mi1 s1], t2 as [y2 mo2 d2 h2 mi2 s2].
  simpl in *.
  assert (Hy : pad4 y1 = pad4 y2) by (unfold pad4, pad2 in *; simpl in H; congruence).
  assert (Hmo : pad2 mo1 = pad2 mo2) by (unfold pad4, pad2 in *; simpl in H; congruence).
  assert (Hd : pad2 d1 = pad2 d2) by (unfold pad4, pad2 in *; simpl in H; congruence).
  assert (Hh : pad2 h1 = pad2 h2) by (unfold pad4, pad2 in *; simpl in H; congruence).
  assert (Hmi : pad2 mi1 = pad2 mi2) by (unfold pad4, pad2 in *; simpl in H; congruence).
  assert (Hs : pad2 s1 = pad2 s2) by (unfold pad4, pad2 in *; simpl in H; congruence).
  apply pad4_inj in Hy; [|lia|lia].
  apply pad2_inj in Hmo; [|lia|lia]. apply pad2_inj in Hd; [|lia|lia].
  apply pad2_inj in Hh; [|lia|lia]. apply pad2_inj in Hmi; [|lia|lia].
  apply pad2_inj in Hs; [|lia|lia]. by subst.
Qed.

Lemma strftime_inj_witness :
  valid_datetime example_now ∧ valid_datetime (now later_world)
  ∧ example_now ≠ now later_world
  ∧ strftime example_now ≠ strftime (now later_world).
Proof.
  assert (H1 : valid_datetime example_now).
  { unfold valid_datetime, example_now. simpl. lia. }
  assert (H2 : valid_datetime (now later_world)).
  { unfold valid_datetime, later_world. simpl. lia. }
  assert (H3 : example_now ≠ now later_world) by discriminate.
  split; [exact H1|]. split; [exact H2|]. split; [exact H3|].
  exact (strftime_inj _ _ H1 H2 H3).
Defined.
